(** * WASP mapping/filter_remapped_reads.py: remap verification and filtering

    A shallow embedding of [filter_reads], [write_reads] and [main] of
    [mapping/filter_remapped_reads.py], with the Python built-ins they call
    ([str.split], [str.join], [in] on strings, [int]) modelled on ASCII
    strings, followed by the properties of the two passes. *)

From Stdlib Require Import ZArith String Ascii List Bool Lia.
From stdpp Require Import base decidable option list gmap strings.

Local Open Scope string_scope.
Local Open Scope list_scope.

(** ** Python string built-ins used by the script *)

Module PyStr.

(** [s.split(sep)] for a one-character separator: never the empty list, an
    empty field between two adjacent separators. *)
Fixpoint split (sep : ascii) (s : string) : list string :=
  match s with
  | EmptyString => [EmptyString]
  | String c s' =>
      if Ascii.eqb c sep then EmptyString :: split sep s'
      else match split sep s' with
           | [] => [String c EmptyString]
           | w :: ws => String c w :: ws
           end
  end.

(** [sep.join(l)]. *)
Fixpoint join (sep : string) (l : list string) : string :=
  match l with
  | [] => EmptyString
  | [w] => w
  | w :: ws => w ++ sep ++ join sep ws
  end.

(** [c in s] for a one-character [c]. *)
Fixpoint contains (c : ascii) (s : string) : bool :=
  match s with
  | EmptyString => false
  | String d s' => Ascii.eqb d c || contains c s'
  end.

(** Whitespace accepted around a literal by [int]: TAB..CR and space. *)
Definition is_space (c : ascii) : bool :=
  let n := nat_of_ascii c in
  ((9 <=? n)%nat && (n <=? 13)%nat) || (n =? 32)%nat.

Definition digit_val (c : ascii) : option Z :=
  let n := nat_of_ascii c in
  if ((48 <=? n)%nat && (n <=? 57)%nat)%bool then Some (Z.of_nat n - 48)%Z
  else None.

Fixpoint lstrip (s : string) : string :=
  match s with
  | EmptyString => EmptyString
  | String c s' => if is_space c then lstrip s' else s
  end.

Fixpoint all_space (s : string) : bool :=
  match s with
  | EmptyString => true
  | String c s' => is_space c && all_space s'
  end.

(** The digits of a base-10 literal: single underscores are allowed between
    digits, trailing whitespace after the last digit. [prev] tells whether
    the previous character was a digit. *)
Fixpoint int_digits (s : string) (acc : Z) (prev : bool) : option Z :=
  match s with
  | EmptyString => if prev then Some acc else None
  | String c s' =>
      match digit_val c with
      | Some d => int_digits s' (10 * acc + d)%Z true
      | None =>
          if Ascii.eqb c "_" then
            if prev then int_digits s' acc false else None
          else if is_space c then
            if prev && all_space s' then Some acc else None
          else None
      end
  end.

(** [int(s)] in base 10, with the literal syntax of Python 3 on ASCII
    strings (ASCII digits only) and no bound on the number of digits: [None]
    stands for the [ValueError] of an invalid literal. *)
Definition int (s : string) : option Z :=
  match lstrip s with
  | String "+" s' => int_digits s' 0 false
  | String "-" s' => Z.opp <$> int_digits s' 0 false
  | s' => int_digits s' 0 false
  end.

End PyStr.

(** ** Alignment records, exceptions and the state of the first pass *)

(** The fields of a [pysam] aligned read that the script reads. *)
Record read := Read {
  qname : string;
  is_secondary : bool;
  is_paired : bool;
  is_proper_pair : bool;
  is_read1 : bool;
  is_read2 : bool;
  pos : Z;
  next_reference_start : Z
}.

(** The places where the script raises; each is a [ValueError] in Python. *)
Inductive exn :=
| BadReadName (name : string)      (* fewer than four fields *)
| InvalidLiteral (s : string)      (* [int(s)] on a non-integer *)
| UnpackMismatch (n : nat)         (* [c1, c2 = l] with [len(l) = n], [n <> 2] *)
| SawTooManyTimes (name : string). (* a name resolved a second time *)

Inductive result (A : Type) :=
| Ok (a : A)
| Raise (e : exn).
Arguments Ok {A} a.
Arguments Raise {A} e.

Definition bind {A B} (m : result A) (k : A -> result B) : result B :=
  match m with
  | Ok a => k a
  | Raise e => Raise e
  end.

Notation "x <-! m ; k" := (bind m (fun x => k))
  (at level 100, m at next level, right associativity).

Definition to_int (s : string) : result Z :=
  match PyStr.int s with
  | Some z => Ok z
  | None => Raise (InvalidLiteral s)
  end.

#[global] Instance exn_eq_dec : EqDecision exn.
Proof. solve_decision. Defined.

(** [read_counts], [keep_reads] and [bad_reads] of [filter_reads]. *)
Record vstate := VState {
  read_counts : gmap string Z;
  keep_reads : gset string;
  bad_reads : gset string
}.

Definition init : vstate := VState ∅ ∅ ∅.

Definition add_bad (orig_name : string) (st : vstate) : vstate :=
  VState (read_counts st) (keep_reads st) ({[orig_name]} ∪ bad_reads st).

(** Lines 121-139: what the loop does with a record once [correct_map] is
    known. *)
Definition account (st : vstate) (orig_name : string) (total : Z)
    (correct_map : bool) : result vstate :=
  if correct_map then
    let c := match read_counts st !! orig_name with
             | Some c => (c + 1)%Z
             | None => 1%Z
             end in
    let counts := <[orig_name := c]> (read_counts st) in
    if (c =? total)%Z then
      if decide (orig_name ∈ keep_reads st) then
        Raise (SawTooManyTimes orig_name)
      else
        Ok (VState (delete orig_name counts)
                   ({[orig_name]} ∪ keep_reads st) (bad_reads st))
    else Ok (VState counts (keep_reads st) (bad_reads st))
  else Ok (add_bad orig_name st).

(** Lines 58-139: one iteration of the loop of [filter_reads]. *)
Definition filter_step (st : vstate) (r : read) : result vstate :=
  if is_secondary r then Ok st
  else
    let words := PyStr.split "." (qname r) in
    if (length words <? 4)%nat then Raise (BadReadName (qname r))
    else
      let orig_name := PyStr.join "." (take (length words - 3) words) in
      match drop (length words - 3) words with
      | [coord_str; num_str; total_str] =>
          num <-! to_int num_str;
          total <-! to_int total_str;
          if PyStr.contains "-" coord_str then
            match PyStr.split "-" coord_str with
            | [c1; c2] =>
                if negb (is_paired r) then Ok (add_bad orig_name st)
                else if negb (is_proper_pair r) then Ok (add_bad orig_name st)
                else
                  pos1 <-! to_int c1;
                  pos2 <-! to_int c2;
                  let '(left_pos, right_pos) :=
                    if (pos1 <? pos2)%Z then (pos1, pos2) else (pos2, pos1) in
                  if (pos r <? next_reference_start r)%Z
                     || ((pos r =? next_reference_start r)%Z
                         && is_read1 r && negb (is_read2 r))
                  then
                    account st orig_name total
                      ((pos1 =? pos r + 1)%Z
                       && (pos2 =? next_reference_start r + 1)%Z)
                  else Ok st
            | l => Raise (UnpackMismatch (length l))
            end
          else
            pos0 <-! to_int coord_str;
            account st orig_name total (pos0 =? pos r + 1)%Z
      | l => Raise (UnpackMismatch (length l))
      end.

(** The loop of [filter_reads] from a given state: an exception ends it. *)
Fixpoint run (st : vstate) (remap_bam : list read) : result vstate :=
  match remap_bam with
  | [] => Ok st
  | r :: rest => st' <-! filter_step st r; run st' rest
  end.

(** [filter_reads(remap_bam)] returns [(keep_reads, bad_reads)]. *)
Definition filter_reads (remap_bam : list read)
    : result (gset string * gset string) :=
  st <-! run init remap_bam;
  Ok (keep_reads st, bad_reads st).

(** ** The second pass *)

(** [keep_count], [bad_count], [discard_count] and what has been handed to
    [keep_bam.write], oldest first. *)
Record wstate := WState {
  keep_count : Z;
  bad_count : Z;
  discard_count : Z;
  keep_bam : list read
}.

(** Lines 153-159: one iteration of the loop of [write_reads]. *)
Definition write_step (keep bad : gset string) (w : wstate) (r : read)
    : wstate :=
  if decide (qname r ∈ bad) then
    WState (keep_count w) (bad_count w + 1)%Z (discard_count w) (keep_bam w)
  else if decide (qname r ∈ keep) then
    WState (keep_count w + 1)%Z (bad_count w) (discard_count w)
           (keep_bam w ++ [r])
  else
    WState (keep_count w) (bad_count w) (discard_count w + 1)%Z (keep_bam w).

Definition write_reads (to_remap_bam : list read) (keep bad : gset string)
    : wstate :=
  fold_left (write_step keep bad) to_remap_bam (WState 0 0 0 []).

(** [main]: the first pass over [remap_bam], then the second over
    [to_remap_bam]. *)
Definition main (to_remap_bam remap_bam : list read) : result wstate :=
  kb <-! filter_reads remap_bam;
  Ok (write_reads to_remap_bam kb.1 kb.2).

(** ** Derived views of the loop body *)

(** Lines 67-80 on their own: the identifier of a remapped read. *)
Record decoded := Decoded {
  original_name : string;
  coordinate_spec : string;
  variant_index : Z;
  variant_total : Z
}.

Definition decode (q : string) : result decoded :=
  let words := PyStr.split "." q in
  if (length words <? 4)%nat then Raise (BadReadName q)
  else
    let orig_name := PyStr.join "." (take (length words - 3) words) in
    match drop (length words - 3) words with
    | [coord_str; num_str; total_str] =>
        num <-! to_int num_str;
        total <-! to_int total_str;
        Ok (Decoded orig_name coord_str num total)
    | l => Raise (UnpackMismatch (length l))
    end.

(** Line 106: the record is taken as the left end of its pair. *)
Definition left_mate (r : read) : bool :=
  (pos r <? next_reference_start r)%Z
  || ((pos r =? next_reference_start r)%Z && is_read1 r && negb (is_read2 r)).

(** What one record contributes, whatever the state: nothing ([continue]
    before line 121), or a name with its total and [correct_map]. *)
Inductive verdict :=
| Skipped
| Judged (orig_name : string) (total : Z) (correct_map : bool).

Definition classify (r : read) : result verdict :=
  if is_secondary r then Ok Skipped
  else
    d <-! decode (qname r);
    if PyStr.contains "-" (coordinate_spec d) then
      match PyStr.split "-" (coordinate_spec d) with
      | [c1; c2] =>
          if negb (is_paired r) then
            Ok (Judged (original_name d) (variant_total d) false)
          else if negb (is_proper_pair r) then
            Ok (Judged (original_name d) (variant_total d) false)
          else
            pos1 <-! to_int c1;
            pos2 <-! to_int c2;
            if left_mate r then
              Ok (Judged (original_name d) (variant_total d)
                    ((pos1 =? pos r + 1)%Z
                     && (pos2 =? next_reference_start r + 1)%Z))
            else Ok Skipped
      | l => Raise (UnpackMismatch (length l))
      end
    else
      pos0 <-! to_int (coordinate_spec d);
      Ok (Judged (original_name d) (variant_total d) (pos0 =? pos r + 1)%Z).

Definition apply_verdict (st : vstate) (v : verdict) : result vstate :=
  match v with
  | Skipped => Ok st
  | Judged orig_name total correct_map => account st orig_name total correct_map
  end.


(** ** Vocabulary of the statements *)

(** An identifier the decoder rejects: fewer than four fields, or one of the
    last two fields is not an integer literal. *)
Definition malformed (q : string) : bool :=
  let words := PyStr.split "." q in
  (length words <? 4)%nat
  || match drop (length words - 2) words with
     | [n; t] =>
         negb (bool_decide (is_Some (PyStr.int n))
               && bool_decide (is_Some (PyStr.int t)))
     | _ => true
     end.

(** The exceptions that report a malformed identifier. *)
Definition malformed_identifier (e : exn) : bool :=
  match e with
  | BadReadName _ | InvalidLiteral _ => true
  | UnpackMismatch _ | SawTooManyTimes _ => false
  end.

(** The three classes of the second pass, in the order it tests them. *)
Definition counted_bad (bad : gset string) (r : read) : Prop :=
  qname r ∈ bad.

Definition counted_kept (keep bad : gset string) (r : read) : Prop :=
  (qname r ∉ bad) /\ (qname r ∈ keep).

Definition counted_discarded (keep bad : gset string) (r : read) : Prop :=
  (qname r ∉ bad) /\ (qname r ∉ keep).

#[global] Instance counted_bad_dec bad r : Decision (counted_bad bad r).
Proof. unfold counted_bad. apply _. Defined.

#[global] Instance counted_kept_dec keep bad r :
  Decision (counted_kept keep bad r).
Proof. unfold counted_kept. apply _. Defined.

#[global] Instance counted_discarded_dec keep bad r :
  Decision (counted_discarded keep bad r).
Proof. unfold counted_discarded. apply _. Defined.

(** The scenario of the single-end read [r1]: its only variant, remapped at
    0-based position 100; the original read under its own name, and under
    the encoded name of the variant. *)
Definition r1_remap : read :=
  Read "r1.101.1.1" false false false false false 100 0.

Definition r1_original : read :=
  Read "r1" false false false false false 100 0.

Definition r1_original_encoded : read :=
  Read "r1.101.1.1" false false false false false 100 0.

(** The left mate of a proper pair at 0-based 49, its mate at 79, under an
    identifier that carries the two coordinates in decreasing order. *)
Definition r2_unsorted : read :=
  Read "r2.80-50.1.1" false true true true false 49 79.

(** The two variants of [orig3], the first where it should be, the second
    elsewhere. *)
Definition orig3_first : read :=
  Read "orig3.101.1.2" false false false false false 100 0.

Definition orig3_second_moved : read :=
  Read "orig3.101.2.2" false false false false false 5 0.

(** The two mates of the only variant of [p9], remapped as an improper
    pair. *)
Definition p9_read1 : read :=
  Read "p9.50-80.1.1" false true false true false 49 300.

Definition p9_read2 : read :=
  Read "p9.50-80.1.1" false true false false true 300 49.

(** Two mates of a proper pair that start at the same place. *)
Definition r5_read1 : read :=
  Read "r5.50-50.1.1" false true true true false 49 49.

Definition r5_read2 : read :=
  Read "r5.50-50.1.1" false true true false true 49 49.

(** The count of [orig_name] as the loop sees it: 0 when it has no entry. *)
Definition cnt (st : vstate) (n : string) : Z :=
  default 0%Z (read_counts st !! n).

(** The record is judged, correct or not, under the name [n]. *)
Definition judged_as (n : string) (r : read) : bool :=
  match classify r with
  | Ok (Judged m _ _) => bool_decide (m = n)
  | _ => false
  end.

(** The record is judged correct under the name [n]. *)
Definition correct_as (n : string) (r : read) : bool :=
  match classify r with
  | Ok (Judged m _ true) => bool_decide (m = n)
  | _ => false
  end.

Definition count_of (f : read -> bool) (s : list read) : nat :=
  length (List.filter f s).

Definition judged_count (n : string) (s : list read) : nat :=
  count_of (judged_as n) s.

Definition correct_count (n : string) (s : list read) : nat :=
  count_of (correct_as n) s.

(** The record is judged incorrect under the name [n]. *)
Definition incorrect_as (n : string) (r : read) : bool :=
  match classify r with
  | Ok (Judged m _ false) => bool_decide (m = n)
  | _ => false
  end.

(** Some record of the stream is judged incorrect under the name [n]. *)
Definition has_incorrect (n : string) (s : list read) : bool :=
  existsb (incorrect_as n) s.

(** The correct records of the name [n] are fewer than the total that each
    of them announces. *)
Definition short_of_total (n : string) (s : list read) : bool :=
  forallb (fun r =>
             match classify r with
             | Ok (Judged m t true) =>
                 negb (bool_decide (m = n))
                 || (Z.of_nat (correct_count n s) <? t)%Z
             | _ => true
             end) s.

(** A stream in which no name has more correct records than the total that
    any correct record of that name announces. *)
Definition correct_within_total (s : list read) : bool :=
  forallb (fun r =>
             match classify r with
             | Ok (Judged n t true) => (Z.of_nat (correct_count n s) <=? t)%Z
             | _ => true
             end) s.

(** What holds of the state after the loop has gone through the records [p]:
    counts are positive and bounded by the correct records seen; a kept name
    has had a full run of correct records on top of its present count; a bad
    name has had an incorrect record. *)
Record inv (p : list read) (st : vstate) : Prop := Inv {
  inv_pos : forall n c, read_counts st !! n = Some c -> (1 <= c)%Z;
  inv_count : forall n, (cnt st n <= Z.of_nat (correct_count n p))%Z;
  inv_keep : forall n, n ∈ keep_reads st ->
    exists r t, In r p /\ classify r = Ok (Judged n t true) /\ (1 <= t)%Z
                /\ (cnt st n + t <= Z.of_nat (correct_count n p))%Z;
  inv_bad : forall n, n ∈ bad_reads st ->
    (correct_count n p < judged_count n p)%nat
}.

(** The record [r] under another identifier. *)
Definition with_qname (q : string) (r : read) : read :=
  Read q (is_secondary r) (is_paired r) (is_proper_pair r)
       (is_read1 r) (is_read2 r) (pos r) (next_reference_start r).

(** Two records that are the same, or differ only in the variant index of
    their identifiers, a well-formed integer field in both. *)
Inductive reindexed : read -> read -> Prop :=
| reindexed_same r : reindexed r r
| reindexed_index r q' pre c n n' t :
    PyStr.split "." (qname r) = pre ++ [c; n; t] ->
    PyStr.split "." q' = pre ++ [c; n'; t] ->
    pre <> [] ->
    is_Some (PyStr.int n) ->
    is_Some (PyStr.int n') ->
    reindexed r (with_qname q' r).

(** * Properties *)

(** ** Strings *)

Module PyStrFacts.
Import PyStr.

Lemma split_nonempty sep s : split sep s <> [].
Proof.
  destruct s as [|c s]; simpl; [discriminate|].
  destruct (Ascii.eqb c sep); [discriminate|].
  destruct (split sep s); discriminate.
Qed.

Lemma join_cons sep w ws :
  ws <> [] -> join sep (w :: ws) = (w ++ sep ++ join sep ws)%string.
Proof. destruct ws; [congruence | reflexivity]. Qed.

Lemma append_nil (s : string) : (EmptyString ++ s)%string = s.
Proof. reflexivity. Qed.

Lemma append_cons c (s t : string) :
  (String c s ++ t)%string = String c (s ++ t)%string.
Proof. reflexivity. Qed.

Lemma append_assoc (a b c : string) :
  ((a ++ b) ++ c = a ++ (b ++ c))%string.
Proof.
  induction a as [|x a IH]; [reflexivity|].
  now rewrite !append_cons, IH.
Qed.

Lemma join_app sep l1 l2 :
  l1 <> [] -> l2 <> [] ->
  join sep (l1 ++ l2) = (join sep l1 ++ sep ++ join sep l2)%string.
Proof.
  induction l1 as [|w l1 IH]; intros H1 H2; [congruence|].
  destruct l1 as [|w' l1].
  - simpl app. now rewrite join_cons.
  - change ((w :: w' :: l1) ++ l2) with (w :: ((w' :: l1) ++ l2)).
    rewrite join_cons by discriminate.
    rewrite IH by (discriminate || assumption).
    rewrite (join_cons sep w (w' :: l1)) by discriminate.
    now rewrite !append_assoc.
Qed.

(** Joining the fields of a split gives the string back. *)
Lemma join_split c s : join (String c EmptyString) (split c s) = s.
Proof.
  induction s as [|d s IH]; simpl; [reflexivity|].
  destruct (Ascii.eqb_spec d c) as [->|Hne].
  - rewrite join_cons by apply split_nonempty.
    now rewrite append_nil, append_cons, append_nil, IH.
  - pose proof (split_nonempty c s) as Hs.
    destruct (split c s) as [|w ws]; [congruence|].
    destruct ws as [|w' ws].
    + simpl in *. now rewrite IH.
    + rewrite join_cons in IH by discriminate.
      rewrite join_cons by discriminate.
      now rewrite append_cons, IH.
Qed.

End PyStrFacts.

(** ** The views agree with the loop body *)

Lemma account_incorrect st n t : account st n t false = Ok (add_bad n st).
Proof. reflexivity. Qed.

Lemma filter_step_classify st r :
  filter_step st r = (v <-! classify r; apply_verdict st v).
Proof.
  unfold filter_step, classify, decode, left_mate.
  destruct (is_secondary r); [reflexivity|].
  destruct (length _ <? 4)%nat; [reflexivity|].
  destruct (drop _ _) as [|c [|n [|t [|? ?]]]]; try reflexivity.
  destruct (to_int n) as [vn|]; [|reflexivity].
  destruct (to_int t) as [vt|]; [|reflexivity].
  cbn [bind coordinate_spec original_name variant_total].
  destruct (PyStr.contains "-" c).
  - destruct (PyStr.split "-" c) as [|c1 [|c2 [|? ?]]]; try reflexivity.
    destruct (negb (is_paired r)); [reflexivity|].
    destruct (negb (is_proper_pair r)); [reflexivity|].
    destruct (to_int c1) as [p1|]; [|reflexivity].
    destruct (to_int c2) as [p2|]; [|reflexivity].
    cbn [bind]. destruct (p1 <? p2)%Z;
      destruct (_ || _); reflexivity.
  - destruct (to_int c); reflexivity.
Qed.

Lemma filter_step_secondary st r : is_secondary r = true -> filter_step st r = Ok st.
Proof. intros H. unfold filter_step. now rewrite H. Qed.

(** The words of a well-formed identifier, seen from the end. *)
Lemma decode_words q pre c n t :
  PyStr.split "." q = pre ++ [c; n; t] ->
  pre <> [] ->
  decode q =
    (num <-! to_int n; total <-! to_int t;
     Ok (Decoded (PyStr.join "." pre) c num total)).
Proof.
  intros Hs Hpre. unfold decode. rewrite Hs.
  rewrite length_app. cbn [length].
  replace (length pre + 3 - 3)%nat with (length pre) by lia.
  rewrite take_app_length, drop_app_length.
  destruct pre as [|w pre]; [congruence|].
  replace (length (w :: pre) + 3 <? 4)%nat with false; [reflexivity|].
  symmetry. apply Nat.ltb_ge. simpl. lia.
Qed.

Lemma decode_short q :
  (length (PyStr.split "." q) < 4)%nat -> decode q = Raise (BadReadName q).
Proof.
  intros H. unfold decode.
  now apply Nat.ltb_lt in H as ->.
Qed.

Lemma last_three (words : list string) :
  (4 <= length words)%nat ->
  exists pre c n t, words = pre ++ [c; n; t] /\ pre <> [].
Proof.
  intros Hlen.
  pose proof (take_drop (length words - 3) words) as Hsplit.
  pose proof (length_drop words (length words - 3)) as Hd.
  destruct (drop (length words - 3) words) as [|c [|n [|t [|? ?]]]] eqn:E;
    simpl in Hd; try lia.
  exists (take (length words - 3) words), c, n, t. split; [now symmetry|].
  intros Hnil. apply (f_equal length) in Hnil.
  rewrite length_take in Hnil. simpl in Hnil. lia.
Qed.

Lemma run_app st p q :
  run st (p ++ q) = (st' <-! run st p; run st' q).
Proof.
  revert st. induction p as [|r p IH]; intros st; simpl; [reflexivity|].
  destruct (filter_step st r); simpl; [apply IH | reflexivity].
Qed.

Lemma classify_decode_raise r e :
  is_secondary r = false -> decode (qname r) = Raise e ->
  classify r = Raise e.
Proof. intros Hs Hd. unfold classify. now rewrite Hs, Hd. Qed.

(** ** The identifier decoder *)

(** C5: an identifier with at least four [.]-separated fields whose last two
    fields are integer literals decodes to its last three fields
    (coordinate spec, variant index, variant total) and to the leading
    fields rejoined with [.] as the original name, which is the identifier
    without its last three fields; ["readA.100.1.2"] gives [readA], [100],
    [1], [2] and ["read.with.dots.100.1.2"] gives [read.with.dots]. *)
Theorem decode_fields :
  (forall q pre c n t vn vt,
      PyStr.split "." q = pre ++ [c; n; t] ->
      pre <> [] ->
      PyStr.int n = Some vn ->
      PyStr.int t = Some vt ->
      decode q = Ok (Decoded (PyStr.join "." pre) c vn vt)
      /\ q = (PyStr.join "." pre ++ "." ++ c ++ "." ++ n ++ "." ++ t)%string)
  /\ decode "readA.100.1.2" = Ok (Decoded "readA" "100" 1 2)
  /\ decode "read.with.dots.100.1.2"
     = Ok (Decoded "read.with.dots" "100" 1 2).
Proof.
  split; [|split; reflexivity].
  intros q pre c n t vn vt Hs Hpre Hn Ht. split.
  - rewrite (decode_words q pre c n t Hs Hpre).
    unfold to_int. now rewrite Hn, Ht.
  - rewrite <- (PyStrFacts.join_split "." q) at 1. rewrite Hs.
    rewrite PyStrFacts.join_app by (assumption || discriminate).
    reflexivity.
Qed.

Lemma decode_fields_witness :
  decode "chr1.read.7.3.4" = Ok (Decoded "chr1.read" "7" 3 4)
  /\ "chr1.read.7.3.4" = ("chr1.read" ++ "." ++ "7" ++ "." ++ "3" ++ "." ++ "4")%string.
Proof.
  apply (proj1 decode_fields "chr1.read.7.3.4" ["chr1"; "read"] "7" "3" "4" 3%Z 4%Z);
    [reflexivity | discriminate | reflexivity | reflexivity].
Defined.

Lemma decode_malformed q :
  malformed q = true ->
  exists e, decode q = Raise e /\ malformed_identifier e = true.
Proof.
  unfold malformed. intros H.
  destruct (length (PyStr.split "." q) <? 4)%nat eqn:Hlen.
  - apply Nat.ltb_lt in Hlen. rewrite (decode_short _ Hlen). eauto.
  - apply Nat.ltb_ge in Hlen. simpl in H.
    destruct (last_three _ Hlen) as (pre & c & n & t & Hw & Hpre).
    rewrite (decode_words q pre c n t Hw Hpre).
    rewrite Hw in H. rewrite length_app in H. cbn [length] in H.
    replace (length pre + 3 - 2)%nat with (length (pre ++ [c])) in H
      by (rewrite length_app; simpl; lia).
    change (pre ++ [c; n; t]) with (pre ++ [c] ++ [n; t]) in H.
    rewrite app_assoc, drop_app_length in H.
    unfold to_int.
    destruct (PyStr.int n) as [vn|]; [|simpl; eauto].
    destruct (PyStr.int t) as [vt|]; [|simpl; eauto].
    exfalso. rewrite !bool_decide_eq_true_2 in H by eauto. discriminate.
Qed.

(** C6: a non-secondary remap record whose identifier has fewer than four
    fields, or whose last two fields are not both integer literals, makes the
    loop body raise a malformed-identifier exception in every state, so the
    verifier raises on every stream that holds such a record, with that
    exception when the records before it were processed. *)
Theorem malformed_identifier_fatal r :
  is_secondary r = false ->
  malformed (qname r) = true ->
  (forall st, exists e,
      filter_step st r = Raise e /\ malformed_identifier e = true)
  /\ (forall pre post st,
        run init pre = Ok st ->
        exists e, filter_reads (pre ++ r :: post) = Raise e
                  /\ malformed_identifier e = true)
  /\ (forall pre post, exists e, filter_reads (pre ++ r :: post) = Raise e).
Proof.
  intros Hsec Hbad.
  destruct (decode_malformed _ Hbad) as (e & He & Hm).
  assert (Hstep : forall st, filter_step st r = Raise e).
  { intros st. rewrite filter_step_classify.
    now rewrite (classify_decode_raise r e Hsec He). }
  split; [|split].
  - intros st. exists e. auto.
  - intros pre post st Hpre. exists e. split; [|assumption].
    unfold filter_reads. rewrite run_app, Hpre. simpl. now rewrite Hstep.
  - intros pre post. unfold filter_reads. rewrite run_app.
    destruct (run init pre) as [st|e']; simpl; [|eauto].
    rewrite Hstep. simpl. eauto.
Qed.

Lemma malformed_identifier_fatal_witness :
  (forall st, exists e,
      filter_step st (Read "read7.12.x.2" false false false false false 11 0)
      = Raise e /\ malformed_identifier e = true)
  /\ (forall pre post st,
        run init pre = Ok st ->
        exists e,
          filter_reads
            (pre ++ Read "read7.12.x.2" false false false false false 11 0 :: post)
          = Raise e
          /\ malformed_identifier e = true)
  /\ (forall pre post, exists e,
        filter_reads
          (pre ++ Read "read7.12.x.2" false false false false false 11 0 :: post)
        = Raise e).
Proof.
  apply (malformed_identifier_fatal
           (Read "read7.12.x.2" false false false false false 11 0));
    reflexivity.
Defined.

(** ** The second pass *)

Section WriteReads.
Variables keep bad : gset string.

(** Decides in which of the three classes the head of the stream falls and
    rewrites the three filters accordingly. *)
Ltac classes r :=
  destruct (decide (qname r ∈ bad)) as [Hbad|Hbad];
  [ rewrite (filter_cons_True (counted_bad bad)) by exact Hbad;
    rewrite (filter_cons_False (counted_kept keep bad))
      by (unfold counted_kept; tauto);
    rewrite (filter_cons_False (counted_discarded keep bad))
      by (unfold counted_discarded; tauto)
  | rewrite (filter_cons_False (counted_bad bad)) by exact Hbad;
    destruct (decide (qname r ∈ keep)) as [Hkeep|Hkeep];
    [ rewrite (filter_cons_True (counted_kept keep bad))
        by (split; assumption);
      rewrite (filter_cons_False (counted_discarded keep bad))
        by (unfold counted_discarded; tauto)
    | rewrite (filter_cons_False (counted_kept keep bad))
        by (unfold counted_kept; tauto);
      rewrite (filter_cons_True (counted_discarded keep bad))
        by (split; assumption) ] ].

(** The loop of [write_reads] from any counters. *)
Lemma write_loop s : forall w,
  let w' := fold_left (write_step keep bad) s w in
  bad_count w'
  = (bad_count w + Z.of_nat (length (filter (counted_bad bad) s)))%Z
  /\ keep_count w'
     = (keep_count w + Z.of_nat (length (filter (counted_kept keep bad) s)))%Z
  /\ discard_count w'
     = (discard_count w
        + Z.of_nat (length (filter (counted_discarded keep bad) s)))%Z
  /\ keep_bam w' = keep_bam w ++ filter (counted_kept keep bad) s.
Proof.
  induction s as [|r s IH]; intros w; cbn zeta.
  - simpl. rewrite app_nil_r. repeat split; lia.
  - cbn [fold_left]. specialize (IH (write_step keep bad w r)).
    cbn zeta in IH. destruct IH as (Hb & Hk & Hd & Hw).
    rewrite Hb, Hk, Hd, Hw. clear Hb Hk Hd Hw.
    unfold write_step. classes r; cbn; rewrite <- ?app_assoc;
      repeat split; lia.
Qed.

Lemma three_way s :
  (length (filter (counted_kept keep bad) s)
   + length (filter (counted_bad bad) s)
   + length (filter (counted_discarded keep bad) s) = length s)%nat.
Proof.
  induction s as [|r s IH]; [reflexivity|].
  classes r; simpl; lia.
Qed.

End WriteReads.

(** C8: [write_reads] puts every record of the original stream in exactly one
    of three classes, testing [bad_reads] before [keep_reads]: the three
    counters count the records whose identifier is in [bad_reads], those whose
    identifier is not but is in [keep_reads], and the rest; the sum of the
    three is the length of the stream, whatever the flags of its records
    (secondary alignments included). *)
Theorem write_reads_partition (s : list read) (keep bad : gset string) :
  let w := write_reads s keep bad in
  bad_count w = Z.of_nat (length (filter (fun r => qname r ∈ bad) s))
  /\ keep_count w
     = Z.of_nat (length (filter (fun r => (qname r ∉ bad) /\ (qname r ∈ keep)) s))
  /\ discard_count w
     = Z.of_nat (length (filter (fun r => (qname r ∉ bad) /\ (qname r ∉ keep)) s))
  /\ (keep_count w + bad_count w + discard_count w)%Z = Z.of_nat (length s).
Proof.
  cbn zeta. unfold write_reads.
  destruct (write_loop keep bad s (WState 0 0 0 [])) as (Hb & Hk & Hd & _).
  cbn zeta in Hb, Hk, Hd. simpl in Hb, Hk, Hd.
  pose proof (three_way keep bad s) as H3.
  unfold counted_bad, counted_kept, counted_discarded in *.
  repeat split; try assumption.
  rewrite Hb, Hk, Hd. lia.
Qed.

(** C1, as stated, fails: the second pass looks [read.qname] up as it is, so
    after [r1] entered [keep_reads] an original-stream record named
    ["r1.101.1.1"] is not written and [keep_count] stays 0. *)
Lemma write_reads_encoded_name_not_kept :
  filter_reads [r1_remap] = Ok ({["r1"]}, ∅)
  /\ main [r1_original_encoded] [r1_remap] = Ok (WState 0 0 1 [])
  /\ ~ (exists w, main [r1_original_encoded] [r1_remap] = Ok w
                  /\ keep_bam w = [r1_original_encoded]
                  /\ keep_count w = 1%Z).
Proof.
  split; [vm_compute; reflexivity|].
  assert (H : main [r1_original_encoded] [r1_remap] = Ok (WState 0 0 1 []))
    by (vm_compute; reflexivity).
  split; [exact H|].
  intros (w & Hw & Hk & _). rewrite H in Hw. inversion Hw; subst w.
  discriminate Hk.
Qed.

(** C1, amended: the second pass tests the identifier of each original-stream
    record itself, undecoded, first against [bad_reads], then against
    [keep_reads]: the records written are, in order, those whose identifier is
    in [keep_reads] and not in [bad_reads]. After the remap record
    ["r1.101.1.1"] at 0-based position 100 put [r1] in [keep_reads], the
    original-stream record named ["r1"] is written and [keep_count] is 1. *)
Theorem write_reads_by_identifier :
  (forall (s : list read) (keep bad : gset string),
      keep_bam (write_reads s keep bad)
      = filter (fun r => (qname r ∉ bad) /\ (qname r ∈ keep)) s)
  /\ filter_reads [r1_remap] = Ok ({["r1"]}, ∅)
  /\ main [r1_original] [r1_remap] = Ok (WState 1 0 0 [r1_original]).
Proof.
  split; [|split].
  - intros s keep bad. unfold write_reads.
    destruct (write_loop keep bad s (WState 0 0 0 [])) as (_ & _ & _ & Hw).
    exact Hw.
  - vm_compute. reflexivity.
  - vm_compute. reflexivity.
Qed.

(** ** Paired-end records *)

Lemma split_without_sep c s :
  PyStr.contains c s = false -> PyStr.split c s = [s].
Proof.
  induction s as [|d s IH]; simpl; [reflexivity|].
  intros H. apply orb_false_iff in H as [Hd Hs].
  rewrite Hd, (IH Hs). reflexivity.
Qed.

Lemma split_two_contains c s a b :
  PyStr.split c s = [a; b] -> PyStr.contains c s = true.
Proof.
  intros H. destruct (PyStr.contains c s) eqn:E; [reflexivity|].
  rewrite (split_without_sep c s E) in H. discriminate.
Qed.

(** What the loop decides for a paired-end, properly paired record. *)
Lemma classify_proper_pair r d c1 c2 p1 p2 :
  is_secondary r = false ->
  decode (qname r) = Ok d ->
  PyStr.split "-" (coordinate_spec d) = [c1; c2] ->
  PyStr.int c1 = Some p1 ->
  PyStr.int c2 = Some p2 ->
  is_paired r = true ->
  is_proper_pair r = true ->
  classify r =
    Ok (if left_mate r
        then Judged (original_name d) (variant_total d)
               ((p1 =? pos r + 1)%Z && (p2 =? next_reference_start r + 1)%Z)
        else Skipped).
Proof.
  intros Hsec Hd Hsp H1 H2 Hp Hpp. unfold classify.
  rewrite Hsec, Hd. cbn [bind].
  rewrite (split_two_contains _ _ _ _ Hsp), Hsp, Hp, Hpp. cbn [negb].
  unfold to_int. rewrite H1, H2. cbn [bind].
  destruct (left_mate r); reflexivity.
Qed.

(** C2, on the code: for the left mate [r2_unsorted] the sorted coordinates
    (50, 80) are the two starts plus one, yet the loop compares [pos1] and
    [pos2] as they are written ([left_pos] and [right_pos] are computed and
    not used), finds the record incorrect and puts [r2] in [bad_reads]. *)
Theorem unsorted_pair_judged_bad :
  left_mate r2_unsorted = true
  /\ (pos r2_unsorted + 1 = Z.min 80 50)%Z
  /\ (next_reference_start r2_unsorted + 1 = Z.max 80 50)%Z
  /\ classify r2_unsorted = Ok (Judged "r2" 1 false)
  /\ filter_reads [r2_unsorted] = Ok (∅, {["r2"]}).
Proof. repeat split; vm_compute; reflexivity. Qed.

(** The same pair with the coordinates in increasing order is kept. *)
Lemma sorted_pair_kept :
  filter_reads [Read "r2.50-80.1.1" false true true true false 49 79]
  = Ok ({["r2"]}, ∅).
Proof. vm_compute. reflexivity. Qed.

(** The loop never finds a left mate correct when the first coordinate of
    the identifier is the larger one. *)
Lemma unsorted_never_correct r (p1 p2 : Z) :
  left_mate r = true -> (p2 < p1)%Z ->
  ((p1 =? pos r + 1)%Z && (p2 =? next_reference_start r + 1)%Z) = false.
Proof.
  unfold left_mate. intros Hl Hlt.
  apply andb_false_iff.
  destruct (Z.eqb_spec p1 (pos r + 1)); [|now left].
  destruct (Z.eqb_spec p2 (next_reference_start r + 1)); [|now right].
  exfalso. apply orb_true_iff in Hl as [Hl|Hl].
  - apply Z.ltb_lt in Hl. lia.
  - apply andb_true_iff in Hl as [Hl _]. apply andb_true_iff in Hl as [Hl _].
    apply Z.eqb_eq in Hl. lia.
Qed.

(** C7: a paired, properly paired record with a two-coordinate identifier
    that starts where its mate starts is judged exactly when it is flagged
    read1 and not read2. The mate so flagged changes the state: found
    correct, its name gets its count incremented, or, on reaching the total,
    enters [keep_reads] and loses its count entry (the loop raises when the
    name was kept already); found incorrect, its name enters [bad_reads].
    The other mate is skipped: counts and both sets stay as they were. *)
Theorem tied_pair_uses_read1 st r d c1 c2 p1 p2 :
  is_secondary r = false ->
  decode (qname r) = Ok d ->
  PyStr.split "-" (coordinate_spec d) = [c1; c2] ->
  PyStr.int c1 = Some p1 ->
  PyStr.int c2 = Some p2 ->
  is_paired r = true ->
  is_proper_pair r = true ->
  pos r = next_reference_start r ->
  classify r =
    Ok (if is_read1 r && negb (is_read2 r)
        then Judged (original_name d) (variant_total d)
               ((p1 =? pos r + 1)%Z && (p2 =? next_reference_start r + 1)%Z)
        else Skipped)
  /\ filter_step st r =
       (if is_read1 r && negb (is_read2 r) then
          if (p1 =? pos r + 1)%Z && (p2 =? next_reference_start r + 1)%Z then
            if (match read_counts st !! original_name d with
                | Some c => c + 1
                | None => 1
                end =? variant_total d)%Z
            then
              if decide (original_name d ∈ keep_reads st) then
                Raise (SawTooManyTimes (original_name d))
              else
                Ok (VState (delete (original_name d) (read_counts st))
                           ({[original_name d]} ∪ keep_reads st)
                           (bad_reads st))
            else
              Ok (VState (<[original_name d :=
                              match read_counts st !! original_name d with
                              | Some c => (c + 1)%Z
                              | None => 1%Z
                              end]> (read_counts st))
                         (keep_reads st) (bad_reads st))
          else
            Ok (VState (read_counts st) (keep_reads st)
                       ({[original_name d]} ∪ bad_reads st))
        else Ok st)
  /\ (is_read1 r && negb (is_read2 r) = true ->
      forall st', filter_step st r = Ok st' ->
        if (p1 =? pos r + 1)%Z && (p2 =? next_reference_start r + 1)%Z then
          read_counts st' !! original_name d
          <> read_counts st !! original_name d
          \/ (original_name d ∈ keep_reads st'
              /\ original_name d ∉ keep_reads st)
        else original_name d ∈ bad_reads st').
Proof.
  intros Hsec Hd Hsp H1 H2 Hp Hpp Htie.
  pose proof (classify_proper_pair r d c1 c2 p1 p2 Hsec Hd Hsp H1 H2 Hp Hpp)
    as Hc.
  assert (Hl : left_mate r = is_read1 r && negb (is_read2 r)).
  { unfold left_mate. rewrite Htie, Z.ltb_irrefl, Z.eqb_refl. reflexivity. }
  rewrite Hl in Hc.
  set (n := original_name d) in *. set (t := variant_total d) in *.
  set (ok := (p1 =? pos r + 1)%Z && (p2 =? next_reference_start r + 1)%Z)
    in *.
  assert (Hs : filter_step st r =
               (if is_read1 r && negb (is_read2 r) then
                  if ok then
                    if (match read_counts st !! n with
                        | Some c => c + 1
                        | None => 1
                        end =? t)%Z
                    then
                      if decide (n ∈ keep_reads st) then
                        Raise (SawTooManyTimes n)
                      else
                        Ok (VState (delete n (read_counts st))
                                   ({[n]} ∪ keep_reads st) (bad_reads st))
                    else
                      Ok (VState (<[n := match read_counts st !! n with
                                         | Some c => (c + 1)%Z
                                         | None => 1%Z
                                         end]> (read_counts st))
                                 (keep_reads st) (bad_reads st))
                  else
                    Ok (VState (read_counts st) (keep_reads st)
                               ({[n]} ∪ bad_reads st))
                else Ok st)).
  { rewrite filter_step_classify, Hc. cbn [bind].
    destruct (is_read1 r && negb (is_read2 r)); [|reflexivity].
    cbn [apply_verdict]. unfold account, add_bad.
    destruct ok; [|reflexivity].
    now rewrite delete_insert_eq. }
  split; [exact Hc|]. split; [exact Hs|].
  intros Hflag st' Hst'. rewrite Hs, Hflag in Hst'.
  destruct ok.
  - destruct (_ =? t)%Z.
    + destruct (decide (n ∈ keep_reads st)) as [Hk|Hk]; [discriminate|].
      inversion Hst'; subst st'. right. cbn [keep_reads].
      split; [apply elem_of_union_l, elem_of_singleton; reflexivity | exact Hk].
    + inversion Hst'; subst st'. left. cbn [read_counts].
      rewrite lookup_insert_eq.
      destruct (read_counts st !! n) as [c|]; [|discriminate].
      intros [= Hcc]. lia.
  - inversion Hst'; subst st'. cbn [bad_reads].
    apply elem_of_union_l, elem_of_singleton. reflexivity.
Qed.

Lemma tied_pair_uses_read1_witness :
  (classify r5_read1 = Ok (Judged "r5" 1 true)
   /\ filter_step init r5_read1 = Ok (VState (delete "r5" ∅) ({["r5"]} ∪ ∅) ∅)
   /\ (true = true ->
       forall st', filter_step init r5_read1 = Ok st' ->
         read_counts st' !! "r5" <> read_counts init !! "r5"
         \/ ("r5" ∈ keep_reads st' /\ "r5" ∉ keep_reads init)))
  /\ (classify r5_read2 = Ok Skipped
      /\ filter_step init r5_read2 = Ok init
      /\ (false = true ->
          forall st', filter_step init r5_read2 = Ok st' ->
            read_counts st' !! "r5" <> read_counts init !! "r5"
            \/ ("r5" ∈ keep_reads st' /\ "r5" ∉ keep_reads init))).
Proof.
  split.
  - apply (tied_pair_uses_read1 init r5_read1
             (Decoded "r5" "50-50" 1 1) "50" "50" 50%Z 50%Z); reflexivity.
  - apply (tied_pair_uses_read1 init r5_read2
             (Decoded "r5" "50-50" 1 1) "50" "50" 50%Z 50%Z); reflexivity.
Defined.

(** The two mates at the same start, in either order, count once. *)
Lemma tied_pair_counted_once :
  filter_reads [r5_read1; r5_read2] = Ok ({["r5"]}, ∅)
  /\ filter_reads [r5_read2; r5_read1] = Ok ({["r5"]}, ∅).
Proof. split; vm_compute; reflexivity. Qed.

(** ** Counting along the first pass *)

Lemma account_correct st n t :
  account st n t true =
    if (cnt st n + 1 =? t)%Z then
      if decide (n ∈ keep_reads st) then Raise (SawTooManyTimes n)
      else Ok (VState (delete n (read_counts st))
                      ({[n]} ∪ keep_reads st) (bad_reads st))
    else Ok (VState (<[n := (cnt st n + 1)%Z]> (read_counts st))
                    (keep_reads st) (bad_reads st)).
Proof.
  unfold account, cnt.
  destruct (read_counts st !! n) as [c|]; cbn [default];
    rewrite delete_insert_eq; reflexivity.
Qed.

Lemma count_of_app f p q : count_of f (p ++ q) = (count_of f p + count_of f q)%nat.
Proof. unfold count_of. now rewrite List.filter_app, length_app. Qed.

Lemma count_of_snoc f p r :
  count_of f (p ++ [r]) = (count_of f p + if f r then 1 else 0)%nat.
Proof. rewrite count_of_app. unfold count_of. simpl. now destruct (f r). Qed.

Lemma correct_le_judged n s : (correct_count n s <= judged_count n s)%nat.
Proof.
  unfold correct_count, judged_count, count_of.
  induction s as [|r s IH]; simpl; [lia|].
  unfold correct_as at 1, judged_as at 1.
  destruct (classify r) as [[|m t [|]]|e]; simpl; try lia;
    destruct (bool_decide (m = n)); simpl; lia.
Qed.

Lemma inv_init : inv [] init.
Proof.
  split; unfold init, cnt; simpl.
  - intros n c H. rewrite lookup_empty in H. discriminate.
  - intros n. rewrite lookup_empty. simpl. unfold correct_count, count_of. simpl. lia.
  - intros n H. set_solver.
  - intros n H. set_solver.
Qed.

Lemma cnt_nonneg p st n : inv p st -> (0 <= cnt st n)%Z.
Proof.
  intros I. unfold cnt.
  destruct (read_counts st !! n) as [c|] eqn:E; simpl; [|lia].
  pose proof (inv_pos p st I n c E). lia.
Qed.

Lemma correct_count_snoc n p r :
  correct_count n (p ++ [r])
  = (correct_count n p + if correct_as n r then 1 else 0)%nat.
Proof. apply count_of_snoc. Qed.

Lemma judged_count_snoc n p r :
  judged_count n (p ++ [r])
  = (judged_count n p + if judged_as n r then 1 else 0)%nat.
Proof. apply count_of_snoc. Qed.

Lemma cnt_insert counts k b m c n :
  cnt (VState (<[m := c]> counts) k b) n
  = if decide (m = n) then c else default 0%Z (counts !! n).
Proof.
  unfold cnt. cbn [read_counts]. rewrite lookup_insert.
  now destruct (decide (m = n)).
Qed.

Lemma cnt_delete counts k b m n :
  cnt (VState (delete m counts) k b) n
  = if decide (m = n) then 0%Z else default 0%Z (counts !! n).
Proof.
  unfold cnt. cbn [read_counts]. rewrite lookup_delete.
  now destruct (decide (m = n)).
Qed.

(** Rewrites the counts over [p ++ [r]] once [classify r] is known. *)
Ltac count_snoc Hc :=
  rewrite ?correct_count_snoc, ?judged_count_snoc;
  unfold correct_as, judged_as; rewrite ?Hc.

Lemma inv_skip p st r :
  inv p st -> classify r = Ok Skipped -> inv (p ++ [r]) st.
Proof.
  intros I Hc. split.
  - exact (inv_pos p st I).
  - intros n. pose proof (inv_count p st I n). count_snoc Hc. lia.
  - intros n Hn.
    destruct (inv_keep p st I n Hn) as (r0 & t0 & Hin & Hcl & Ht & Hle).
    exists r0, t0. repeat split; [apply in_or_app; now left|assumption..|].
    count_snoc Hc. lia.
  - intros n Hn. pose proof (inv_bad p st I n Hn). count_snoc Hc. lia.
Qed.

Lemma inv_incorrect p st r m t :
  inv p st -> classify r = Ok (Judged m t false) ->
  inv (p ++ [r]) (add_bad m st).
Proof.
  intros I Hc. split.
  - exact (inv_pos p st I).
  - intros n. pose proof (inv_count p st I n).
    change (cnt (add_bad m st) n) with (cnt st n). count_snoc Hc. lia.
  - intros n Hn.
    destruct (inv_keep p st I n Hn) as (r0 & t0 & Hin & Hcl & Ht & Hle).
    exists r0, t0. repeat split; [apply in_or_app; now left|assumption..|].
    change (cnt (add_bad m st) n) with (cnt st n). count_snoc Hc. lia.
  - intros n Hn. count_snoc Hc.
    pose proof (correct_le_judged n p).
    case_bool_decide as Hmn; [lia|].
    unfold add_bad in Hn. cbn [bad_reads] in Hn.
    apply elem_of_union in Hn as [Hn|Hn];
      [apply elem_of_singleton in Hn; congruence|].
    pose proof (inv_bad p st I n Hn). lia.
Qed.

Lemma inv_correct p st r m t st' :
  inv p st -> classify r = Ok (Judged m t true) ->
  account st m t true = Ok st' ->
  inv (p ++ [r]) st'.
Proof.
  intros I Hc Ha. rewrite account_correct in Ha.
  pose proof (cnt_nonneg p st m I) as Hm0.
  destruct (Z.eqb_spec (cnt st m + 1) t) as [Ht|Ht].
  - destruct (decide (m ∈ keep_reads st)) as [Hk|Hk]; [discriminate|].
    inversion Ha; subst st'; clear Ha. split.
    + intros n c. cbn [read_counts]. rewrite lookup_delete.
      destruct (decide (m = n)); [discriminate|]. apply (inv_pos p st I).
    + intros n. rewrite cnt_delete. count_snoc Hc.
      pose proof (inv_count p st I n) as Hn. unfold cnt in Hn.
      destruct (decide (m = n)); [lia|].
      rewrite bool_decide_eq_false_2 by assumption. lia.
    + intros n Hn. rewrite cnt_delete. cbn [keep_reads] in Hn.
      destruct (decide (m = n)) as [<-|Hne].
      * exists r, t. repeat split; [apply in_or_app; right; now left|assumption|lia|].
        count_snoc Hc. rewrite bool_decide_eq_true_2 by reflexivity.
        pose proof (inv_count p st I m). lia.
      * apply elem_of_union in Hn as [Hn|Hn];
          [apply elem_of_singleton in Hn; congruence|].
        destruct (inv_keep p st I n Hn) as (r0 & t0 & Hin & Hcl & Ht0 & Hle).
        exists r0, t0. repeat split; [apply in_or_app; now left|assumption..|].
        count_snoc Hc. unfold cnt in Hle. lia.
    + intros n Hn. cbn [bad_reads] in Hn.
      pose proof (inv_bad p st I n Hn). count_snoc Hc.
      case_bool_decide; lia.
  - inversion Ha; subst st'; clear Ha. split.
    + intros n c. cbn [read_counts]. rewrite lookup_insert.
      destruct (decide (m = n)); [|apply (inv_pos p st I)].
      intros [= <-]. lia.
    + intros n. rewrite cnt_insert. count_snoc Hc.
      pose proof (inv_count p st I n) as Hn. unfold cnt in Hn.
      destruct (decide (m = n)) as [<-|Hne].
      * rewrite bool_decide_eq_true_2 by reflexivity. unfold cnt in *. lia.
      * rewrite bool_decide_eq_false_2 by assumption. lia.
    + intros n Hn. rewrite cnt_insert. cbn [keep_reads] in Hn.
      destruct (inv_keep p st I n Hn) as (r0 & t0 & Hin & Hcl & Ht0 & Hle).
      exists r0, t0. repeat split; [apply in_or_app; now left|assumption..|].
      count_snoc Hc. unfold cnt in *.
      destruct (decide (m = n)) as [<-|Hne].
      * rewrite bool_decide_eq_true_2 by reflexivity. lia.
      * lia.
    + intros n Hn. cbn [bad_reads] in Hn.
      pose proof (inv_bad p st I n Hn). count_snoc Hc.
      case_bool_decide; lia.
Qed.

Lemma inv_step p st r st' :
  inv p st -> filter_step st r = Ok st' -> inv (p ++ [r]) st'.
Proof.
  intros I Hs. rewrite filter_step_classify in Hs.
  destruct (classify r) as [[|m t [|]]|e] eqn:Hc; cbn [bind apply_verdict] in Hs.
  - inversion Hs; subst. now apply inv_skip.
  - now apply (inv_correct p st r m t).
  - rewrite account_incorrect in Hs. inversion Hs; subst.
    now apply (inv_incorrect p st r m t).
  - discriminate.
Qed.

Lemma inv_run q : forall p st st',
  inv p st -> run st q = Ok st' -> inv (p ++ q) st'.
Proof.
  induction q as [|r q IH]; intros p st st' I Hr; simpl in Hr.
  - inversion Hr; subst. now rewrite app_nil_r.
  - destruct (filter_step st r) as [st1|e] eqn:Hs; [|discriminate].
    cbn [bind] in Hr.
    change (r :: q) with ([r] ++ q). rewrite app_assoc.
    apply (IH _ st1); [|assumption]. now apply (inv_step p st).
Qed.

Lemma inv_filter_reads s st : run init s = Ok st -> inv s st.
Proof. intros H. apply (inv_run s [] init st inv_init H). Qed.

Lemma run_raise q : forall st e,
  run st q = Raise e ->
  exists q1 r q2 st1,
    q = q1 ++ r :: q2 /\ run st q1 = Ok st1 /\ filter_step st1 r = Raise e.
Proof.
  induction q as [|r q IH]; intros st e H; simpl in H; [discriminate|].
  destruct (filter_step st r) as [st1|e1] eqn:Hs; cbn [bind] in H.
  - destruct (IH st1 e H) as (q1 & r' & q2 & st2 & -> & Hq1 & Hr').
    exists (r :: q1), r', q2, st2. simpl. rewrite Hs. auto.
  - inversion H; subst e1. exists [], r, q, st. auto.
Qed.

(** The exceptions of [classify] come from the identifier, never from the
    counts. *)
Lemma classify_no_duplicate r n : classify r <> Raise (SawTooManyTimes n).
Proof.
  unfold classify, decode, to_int.
  repeat (match goal with
          | |- context [if ?b then _ else _] => destruct b
          | |- context [match ?l with [] => _ | _ :: _ => _ end] => destruct l
          | |- context [match PyStr.int ?x with Some _ => _ | None => _ end] =>
              destruct (PyStr.int x)
          end; cbn [bind coordinate_spec original_name variant_total];
          try discriminate).
Qed.

Lemma correct_within_total_bound s r n t :
  correct_within_total s = true -> In r s ->
  classify r = Ok (Judged n t true) ->
  (Z.of_nat (correct_count n s) <= t)%Z.
Proof.
  unfold correct_within_total. rewrite forallb_forall.
  intros H Hr Hc. specialize (H r Hr). rewrite Hc in H. now apply Z.leb_le.
Qed.

Lemma correct_count_app n p q :
  correct_count n (p ++ q) = (correct_count n p + correct_count n q)%nat.
Proof. apply count_of_app. Qed.

(** ** The two sets and the count map *)

(** C3, as stated, fails: a name kept by its only variant and then judged
    incorrect by a further record of the same name is in both sets when
    [filter_reads] returns. *)
Lemma kept_then_bad_in_both_sets :
  filter_reads [Read "orig4.101.1.1" false false false false false 100 0;
                Read "orig4.101.1.1" false false false false false 5 0]
  = Ok ({["orig4"]}, {["orig4"]})
  /\ ({["orig4"]} ∩ {["orig4"]} : gset string) <> ∅.
Proof.
  split; [vm_compute; reflexivity|].
  intros H. assert ("orig4" ∈ (∅ : gset string)) as H0;
    [rewrite <- H; set_solver | set_solver].
Qed.

(** A name with fewer correct records than judged ones has an incorrect
    record. *)
Lemma incorrect_of_counts n s :
  (correct_count n s < judged_count n s)%nat -> has_incorrect n s = true.
Proof.
  unfold correct_count, judged_count, count_of, has_incorrect.
  induction s as [|r s IH]; cbn [List.filter existsb]; [simpl; lia|].
  unfold correct_as at 1, judged_as at 1, incorrect_as at 1.
  destruct (classify r) as [[|m t [|]]|e]; cbn [orb]; try exact IH;
    destruct (bool_decide (m = n)); cbn [length orb]; try exact IH;
    try reflexivity.
  intros H. apply IH. lia.
Qed.

(** C3, amended: when [filter_reads] returns, a name is not in both
    [keep_reads] and [bad_reads] provided that, if the stream has an
    incorrect record of the name, the correct records of the name are fewer
    than the total that each of them announces; when this holds of every
    name the two sets are disjoint. *)
Theorem keep_bad_disjoint_short_of_total s keep bad :
  filter_reads s = Ok (keep, bad) ->
  (forall n,
      (has_incorrect n s = true -> short_of_total n s = true) ->
      ~ (n ∈ keep /\ n ∈ bad))
  /\ ((forall n, has_incorrect n s = true -> short_of_total n s = true) ->
      keep ∩ bad = ∅).
Proof.
  intros Hf. unfold filter_reads in Hf.
  destruct (run init s) as [st|e] eqn:Hr; [|discriminate].
  cbn [bind] in Hf. inversion Hf; subst keep bad; clear Hf.
  pose proof (inv_filter_reads s st Hr) as I.
  assert (Hone : forall n,
             (has_incorrect n s = true -> short_of_total n s = true) ->
             ~ (n ∈ keep_reads st /\ n ∈ bad_reads st)).
  { intros n Hn [Hk Hb].
    destruct (inv_keep s st I n Hk) as (r & t & Hin & Hc & Ht & Hle).
    pose proof (incorrect_of_counts n s (inv_bad s st I n Hb)) as Hinc.
    specialize (Hn Hinc). unfold short_of_total in Hn.
    rewrite forallb_forall in Hn. specialize (Hn r Hin). rewrite Hc in Hn.
    rewrite bool_decide_eq_true_2 in Hn by reflexivity. cbn [negb orb] in Hn.
    apply Z.ltb_lt in Hn. pose proof (cnt_nonneg s st n I). lia. }
  split; [exact Hone|].
  intros Hall. apply disjoint_intersection_L. intros n Hk Hb.
  exact (Hone n (Hall n) (conj Hk Hb)).
Qed.

Lemma keep_bad_disjoint_short_of_total_witness :
  ~ ("orig3" ∈ ({["r1"]} : gset string)
     /\ "orig3" ∈ ({["orig3"; "p9"]} : gset string)).
Proof.
  assert (Hf : filter_reads [orig3_first; p9_read1; orig3_second_moved;
                             r1_remap; p9_read2]
               = Ok ({["r1"]}, {["orig3"; "p9"]}))
    by (vm_compute; reflexivity).
  apply (proj1 (keep_bad_disjoint_short_of_total _ _ _ Hf) "orig3").
  intros _. vm_compute. reflexivity.
Defined.

(** C4: when a correct record brings the count of its name to its total while
    the name is already in [keep_reads], the loop body raises, and so does
    [filter_reads] on every stream that reaches that point; on a stream in
    which no name has more correct records than the total that each of them
    announces, [filter_reads] never raises that exception. *)
Theorem duplicate_resolution_fatal :
  (forall st r n t,
      classify r = Ok (Judged n t true) ->
      (cnt st n + 1)%Z = t ->
      n ∈ keep_reads st ->
      filter_step st r = Raise (SawTooManyTimes n)
      /\ forall pre post,
           run init pre = Ok st ->
           filter_reads (pre ++ r :: post) = Raise (SawTooManyTimes n))
  /\ (forall s n,
        correct_within_total s = true ->
        filter_reads s <> Raise (SawTooManyTimes n)).
Proof.
  split.
  - intros st r n t Hc Ht Hk.
    assert (Hs : filter_step st r = Raise (SawTooManyTimes n)).
    { rewrite filter_step_classify, Hc. cbn [bind apply_verdict].
      rewrite account_correct.
      apply Z.eqb_eq in Ht as ->. now rewrite decide_True. }
    split; [exact Hs|].
    intros pre post Hpre. unfold filter_reads.
    rewrite run_app, Hpre. cbn [bind run]. now rewrite Hs.
  - intros s n Hw Hf. unfold filter_reads in Hf.
    destruct (run init s) as [st|e] eqn:Hr; [discriminate|].
    cbn [bind] in Hf. inversion Hf; subst e; clear Hf.
    destruct (run_raise s init _ Hr) as (q1 & r & q2 & st1 & -> & Hq1 & Hs).
    pose proof (inv_filter_reads q1 st1 Hq1) as I.
    rewrite filter_step_classify in Hs.
    destruct (classify r) as [[|m t [|]]|e] eqn:Hc;
      cbn [bind apply_verdict] in Hs; try discriminate.
    + rewrite account_correct in Hs.
      destruct (Z.eqb_spec (cnt st1 m + 1) t) as [Ht|Ht]; [|discriminate].
      destruct (decide (m ∈ keep_reads st1)) as [Hk|Hk]; [|discriminate].
      destruct (inv_keep q1 st1 I m Hk) as (r0 & t0 & _ & _ & Ht0 & Hle).
      assert (Hin : In r (q1 ++ r :: q2)) by (apply in_or_app; right; now left).
      pose proof (correct_within_total_bound _ r m t Hw Hin Hc) as Hb.
      rewrite correct_count_app in Hb.
      change (r :: q2) with ([r] ++ q2) in Hb.
      rewrite correct_count_app in Hb.
      assert (correct_count m [r] = 1%nat) as H1.
      { unfold correct_count, count_of, correct_as. simpl. rewrite Hc.
        now rewrite bool_decide_eq_true_2. }
      lia.
    + inversion Hs; subst e. now apply (classify_no_duplicate r n).
Qed.

Lemma duplicate_resolution_fatal_witness :
  (filter_step (VState ∅ {["r1"]} ∅) r1_remap = Raise (SawTooManyTimes "r1")
   /\ forall pre post,
        run init pre = Ok (VState ∅ {["r1"]} ∅) ->
        filter_reads (pre ++ r1_remap :: post) = Raise (SawTooManyTimes "r1"))
  /\ filter_reads [r1_remap] <> Raise (SawTooManyTimes "r1").
Proof.
  split.
  - apply (proj1 duplicate_resolution_fatal
             (VState ∅ {["r1"]} ∅) r1_remap "r1" 1%Z);
      [reflexivity | reflexivity | set_solver].
  - apply (proj2 duplicate_resolution_fatal [r1_remap] "r1"). reflexivity.
Defined.

(** C9, as stated, fails: after one correct record of a name announcing two
    variants and one incorrect record of the same name, the name is in
    [bad_reads] and still has its count entry. *)
Lemma bad_name_keeps_count_entry :
  run init [Read "orig3.101.1.2" false false false false false 100 0;
            Read "orig3.101.2.2" false false false false false 5 0]
  = Ok (VState {["orig3" := 1%Z]} ∅ {["orig3"]})
  /\ ({["orig3" := 1%Z]} : gmap string Z) !! "orig3" = Some 1%Z
  /\ "orig3" ∈ ({["orig3"]} : gset string).
Proof.
  split; [vm_compute; reflexivity|].
  split; [apply lookup_singleton_eq | set_solver].
Qed.

(** C9, amended: along [filter_reads] on a stream in which no name has more
    correct records than the total that each of them announces, a name with
    an entry in [read_counts] is never in [keep_reads]; in every state, the
    correct record that brings the count of its name to its total removes
    the entry and puts the name in [keep_reads], any other correct record
    stores the incremented count, and an incorrect record adds the name to
    [bad_reads] without touching [read_counts]. *)
Theorem count_entries_not_kept :
  (forall s p q st n,
      correct_within_total s = true ->
      s = p ++ q ->
      run init p = Ok st ->
      is_Some (read_counts st !! n) ->
      n ∉ keep_reads st)
  /\ (forall st st' r n t,
        classify r = Ok (Judged n t true) ->
        filter_step st r = Ok st' ->
        if (cnt st n + 1 =? t)%Z
        then read_counts st' !! n = None /\ n ∈ keep_reads st'
        else read_counts st' !! n = Some (cnt st n + 1)%Z)
  /\ (forall st r n t,
        classify r = Ok (Judged n t false) ->
        exists st', filter_step st r = Ok st'
                    /\ read_counts st' = read_counts st
                    /\ n ∈ bad_reads st').
Proof.
  split; [|split].
  - intros s p q st n Hw -> Hr [c Hc] Hk.
    pose proof (inv_filter_reads p st Hr) as I.
    destruct (inv_keep p st I n Hk) as (r & t & Hin & Hcl & Ht & Hle).
    assert (Hin' : In r (p ++ q)) by (apply in_or_app; now left).
    pose proof (correct_within_total_bound _ r n t Hw Hin' Hcl) as Hb.
    rewrite correct_count_app in Hb.
    pose proof (inv_pos p st I n c Hc) as Hpos.
    unfold cnt in Hle. rewrite Hc in Hle. simpl in Hle. lia.
  - intros st st' r n t Hc Hs.
    rewrite filter_step_classify, Hc in Hs. cbn [bind apply_verdict] in Hs.
    rewrite account_correct in Hs.
    destruct (cnt st n + 1 =? t)%Z.
    + destruct (decide (n ∈ keep_reads st)); [discriminate|].
      inversion Hs; subst st'. cbn [read_counts keep_reads].
      split; [apply lookup_delete_eq | set_solver].
    + inversion Hs; subst st'. cbn [read_counts]. apply lookup_insert_eq.
  - intros st r n t Hc. exists (add_bad n st).
    rewrite filter_step_classify, Hc. cbn [bind apply_verdict].
    rewrite account_incorrect. repeat split. unfold add_bad. set_solver.
Qed.

Lemma count_entries_not_kept_witness :
  "orig3" ∉ keep_reads (VState {["orig3" := 1%Z]} ∅ ∅).
Proof.
  apply (proj1 count_entries_not_kept
           [Read "orig3.101.1.2" false false false false false 100 0;
            Read "orig3.101.2.2" false false false false false 100 0]
           [Read "orig3.101.1.2" false false false false false 100 0]
           [Read "orig3.101.2.2" false false false false false 100 0]
           (VState {["orig3" := 1%Z]} ∅ ∅) "orig3");
    [vm_compute; reflexivity | reflexivity | vm_compute; reflexivity |].
  exists 1%Z. apply lookup_singleton_eq.
Defined.

(** ** The variant index *)

Lemma classify_reindexed r r' : reindexed r r' -> classify r = classify r'.
Proof.
  intros [r0|r0 q' pre c n n' t Hq Hq' Hpre [vn Hn] [vn' Hn']]; [reflexivity|].
  unfold classify, left_mate. cbn [with_qname qname is_secondary is_paired
    is_proper_pair is_read1 is_read2 pos next_reference_start].
  destruct (is_secondary r0); [reflexivity|].
  rewrite (decode_words _ pre c n t Hq Hpre).
  rewrite (decode_words _ pre c n' t Hq' Hpre).
  unfold to_int. rewrite Hn, Hn'. cbn [bind].
  destruct (PyStr.int t); reflexivity.
Qed.

Lemma run_reindexed s s' :
  Forall2 reindexed s s' -> forall st, run st s = run st s'.
Proof.
  induction 1 as [|r r' s s' Hr _ IH]; intros st; [reflexivity|].
  simpl. rewrite !filter_step_classify, (classify_reindexed r r' Hr).
  destruct (classify r') as [v|e]; cbn [bind]; [|reflexivity].
  destruct (apply_verdict st v); cbn [bind]; [apply IH | reflexivity].
Qed.

(** C10: two remap streams that differ only in the variant index of some
    identifiers, an integer in both, give the same result: the same two sets,
    or the same exception. *)
Theorem filter_reads_ignores_variant_index s s' :
  Forall2 reindexed s s' -> filter_reads s = filter_reads s'.
Proof.
  intros H. unfold filter_reads. now rewrite (run_reindexed s s' H init).
Qed.

Lemma filter_reads_ignores_variant_index_witness :
  filter_reads [r1_remap; Read "orig3.7-9.1.2" false true true true false 6 8]
  = filter_reads [with_qname "r1.101.5.1" r1_remap;
                  Read "orig3.7-9.1.2" false true true true false 6 8].
Proof.
  apply (filter_reads_ignores_variant_index
           [r1_remap; Read "orig3.7-9.1.2" false true true true false 6 8]
           [with_qname "r1.101.5.1" r1_remap;
            Read "orig3.7-9.1.2" false true true true false 6 8]).
  constructor; [|constructor; [apply reindexed_same | constructor]].
  apply (reindexed_index r1_remap "r1.101.5.1" ["r1"] "101" "1" "5" "1");
    [reflexivity | reflexivity | discriminate
    | exists 1%Z; reflexivity | exists 5%Z; reflexivity].
Defined.

(** * Further properties of the two passes *)

(** ** The loop of [filter_reads] as a whole *)

(** Induction along the loop from the empty state, one record at a time. *)
Lemma run_snoc_ind (P : list read -> vstate -> Prop) :
  P [] init ->
  (forall p st r st', run init p = Ok st -> P p st ->
                      filter_step st r = Ok st' -> P (p ++ [r]) st') ->
  forall s st, run init s = Ok st -> P s st.
Proof.
  intros H0 Hstep s.
  induction s as [|r s IH] using rev_ind; intros st Hr.
  - inversion Hr; subst. exact H0.
  - rewrite run_app in Hr.
    destruct (run init s) as [st1|e] eqn:Hs; [|discriminate].
    cbn [bind run] in Hr.
    destruct (filter_step st1 r) as [st2|e] eqn:Hf; [|discriminate].
    inversion Hr; subst st2. apply (Hstep s st1 r st); auto.
Qed.

Lemma filter_reads_run s keep bad :
  filter_reads s = Ok (keep, bad) <->
  exists st, run init s = Ok st /\ keep = keep_reads st /\ bad = bad_reads st.
Proof.
  unfold filter_reads. destruct (run init s) as [st|e]; cbn [bind]; split.
  - intros [= <- <-]. eauto.
  - intros (st' & [= <-] & -> & ->). reflexivity.
  - discriminate.
  - intros (st' & Hst & _). discriminate.
Qed.

(** X1: secondary alignments play no part: [filter_reads] gives the same
    result, sets or exception, on a stream and on its primary records. *)
Theorem secondary_records_ignored s :
  filter_reads s
  = filter_reads (List.filter (fun r => negb (is_secondary r)) s).
Proof.
  unfold filter_reads. f_equal. generalize init.
  induction s as [|r s IH]; intros st; [reflexivity|].
  cbn [List.filter]. destruct (is_secondary r) eqn:Hsec; cbn [negb].
  - cbn [run]. rewrite (filter_step_secondary st r Hsec). apply IH.
  - cbn [run]. destruct (filter_step st r); cbn [bind]; [apply IH|reflexivity].
Qed.

(** What one judged record changes and what it leaves alone. *)
Lemma account_frame st st' m t c :
  account st m t c = Ok st' ->
  keep_reads st ⊆ keep_reads st'
  /\ bad_reads st ⊆ bad_reads st'
  /\ forall n, m <> n ->
       read_counts st' !! n = read_counts st !! n
       /\ (n ∈ keep_reads st' <-> n ∈ keep_reads st)
       /\ (n ∈ bad_reads st' <-> n ∈ bad_reads st).
Proof.
  destruct c.
  - rewrite account_correct.
    destruct (cnt st m + 1 =? t)%Z.
    + destruct (decide (m ∈ keep_reads st)) as [Hk|Hk]; [discriminate|].
      intros [= <-]. cbn [keep_reads bad_reads read_counts].
      split; [set_solver|]. split; [set_solver|].
      intros n Hn. rewrite lookup_delete_ne by assumption.
      rewrite elem_of_union, elem_of_singleton. intuition congruence.
    + intros [= <-]. cbn [keep_reads bad_reads read_counts].
      split; [set_solver|]. split; [set_solver|].
      intros n Hn. rewrite lookup_insert_ne by assumption. set_solver.
  - rewrite account_incorrect. intros [= <-]. unfold add_bad.
    cbn [keep_reads bad_reads read_counts].
    split; [set_solver|]. split; [set_solver|].
    intros n Hn. rewrite elem_of_union, elem_of_singleton.
    intuition congruence.
Qed.

Lemma filter_step_grows st st' r :
  filter_step st r = Ok st' ->
  keep_reads st ⊆ keep_reads st' /\ bad_reads st ⊆ bad_reads st'.
Proof.
  rewrite filter_step_classify.
  destruct (classify r) as [[|m t c]|e]; cbn [bind apply_verdict].
  - intros [= <-]. split; reflexivity.
  - intros H. destruct (account_frame st st' m t c H) as (Hk & Hb & _). auto.
  - discriminate.
Qed.

(** X2: the loop never takes a name out of [keep_reads] or [bad_reads]: from
    any state, both sets at the end hold what they held at the start. *)
Theorem sets_only_grow s : forall st st',
  run st s = Ok st' ->
  keep_reads st ⊆ keep_reads st' /\ bad_reads st ⊆ bad_reads st'.
Proof.
  induction s as [|r s IH]; intros st st' H; cbn [run] in H.
  - inversion H; subst. split; reflexivity.
  - destruct (filter_step st r) as [st1|e] eqn:Hs; [|discriminate].
    cbn [bind] in H.
    destruct (filter_step_grows st st1 r Hs) as [Hk Hb].
    destruct (IH st1 st' H) as [Hk' Hb'].
    split; etransitivity; eassumption.
Qed.

Lemma sets_only_grow_witness :
  keep_reads (VState ∅ {["r1"]} {["r2"]})
  ⊆ keep_reads (VState {["orig3" := 1%Z]} {["r1"; "r5"]} {["orig3"; "r2"]})
  /\ bad_reads (VState ∅ {["r1"]} {["r2"]})
     ⊆ bad_reads (VState {["orig3" := 1%Z]} {["r1"; "r5"]}
                         {["orig3"; "r2"]}).
Proof.
  apply (sets_only_grow [orig3_first; r5_read1; orig3_second_moved]
           (VState ∅ {["r1"]} {["r2"]})
           (VState {["orig3" := 1%Z]} {["r1"; "r5"]} {["orig3"; "r2"]})).
  vm_compute. reflexivity.
Defined.

(** X3: a record judged under one name leaves every other name as it was:
    its count entry, and whether it is in [keep_reads] or [bad_reads]. *)
Theorem other_names_untouched st st' r m t c n :
  classify r = Ok (Judged m t c) ->
  m <> n ->
  filter_step st r = Ok st' ->
  read_counts st' !! n = read_counts st !! n
  /\ (n ∈ keep_reads st' <-> n ∈ keep_reads st)
  /\ (n ∈ bad_reads st' <-> n ∈ bad_reads st).
Proof.
  intros Hc Hn Hs. rewrite filter_step_classify, Hc in Hs.
  cbn [bind apply_verdict] in Hs.
  destruct (account_frame st st' m t c Hs) as (_ & _ & H). auto.
Qed.

Lemma other_names_untouched_witness :
  read_counts (VState ∅ {["r1"]} ∅) !! "orig3" = read_counts init !! "orig3"
  /\ ("orig3" ∈ keep_reads (VState ∅ {["r1"]} ∅) <-> "orig3" ∈ keep_reads init)
  /\ ("orig3" ∈ bad_reads (VState ∅ {["r1"]} ∅) <-> "orig3" ∈ bad_reads init).
Proof.
  apply (other_names_untouched init (VState ∅ {["r1"]} ∅) r1_remap
           "r1" 1%Z true "orig3");
    [reflexivity | discriminate | vm_compute; reflexivity].
Defined.

(** ** What the two sets hold when [filter_reads] returns *)

(** [bad_reads] holds the names of the incorrect records seen, and no
    other. *)
Lemma bad_reads_run s st :
  run init s = Ok st ->
  forall n, n ∈ bad_reads st <->
            exists r t, In r s /\ classify r = Ok (Judged n t false).
Proof.
  revert s st. apply (run_snoc_ind (fun s st => forall n,
    n ∈ bad_reads st <->
    exists r t, In r s /\ classify r = Ok (Judged n t false))).
  - intros n. split; [set_solver|]. intros (r & t & [] & _).
  - intros p st r st' _ IH Hs n.
    assert (Hold : (exists r0 t, In r0 p /\ classify r0 = Ok (Judged n t false))
                   -> exists r0 t, In r0 (p ++ [r])
                                   /\ classify r0 = Ok (Judged n t false)).
    { intros (r0 & t & Hin & Hc). exists r0, t.
      split; [apply in_or_app; now left | assumption]. }
    assert (Hnew : forall P : Prop,
               (forall t, classify r = Ok (Judged n t false) -> P) ->
               (n ∈ bad_reads st -> P) ->
               (exists r0 t, In r0 (p ++ [r])
                             /\ classify r0 = Ok (Judged n t false)) -> P).
    { intros P Hr Hp (r0 & t & Hin & Hc).
      apply in_app_or in Hin as [Hin|[<-|[]]]; [|now apply (Hr t)].
      apply Hp, IH. eauto. }
    rewrite filter_step_classify in Hs.
    destruct (classify r) as [[|m t [|]]|e] eqn:Hc;
      cbn [bind apply_verdict] in Hs; [| | |discriminate].
    + inversion Hs; subst st'. split.
      * intros Hn. apply Hold, IH, Hn.
      * apply Hnew; [discriminate | trivial].
    + destruct (account_frame st st' m t true Hs) as (_ & Hb & _).
      split.
      * intros Hn. apply Hold, IH.
        rewrite account_correct in Hs.
        destruct (cnt st m + 1 =? t)%Z;
          [destruct (decide (m ∈ keep_reads st)); [discriminate|]|];
          inversion Hs; subst st'; exact Hn.
      * apply Hnew; [discriminate | intros Hn; now apply Hb].
    + rewrite account_incorrect in Hs. inversion Hs; subst st'.
      unfold add_bad. cbn [bad_reads]. split.
      * intros Hn. apply elem_of_union in Hn as [Hn|Hn].
        -- apply elem_of_singleton in Hn as ->. exists r, t.
           split; [apply in_or_app; right; now left | exact Hc].
        -- apply Hold, IH, Hn.
      * apply Hnew.
        -- intros t' [= -> _]. apply elem_of_union_l, elem_of_singleton.
           reflexivity.
        -- intros Hn. now apply elem_of_union_r.
Qed.

(** X4: when [filter_reads] returns, [bad_reads] holds exactly the names
    under which some record of the stream was judged incorrect. *)
Theorem bad_reads_exact s keep bad n :
  filter_reads s = Ok (keep, bad) ->
  (n ∈ bad <-> exists r t, In r s /\ classify r = Ok (Judged n t false)).
Proof.
  intros H. apply filter_reads_run in H as (st & Hr & _ & ->).
  apply (bad_reads_run s st Hr).
Qed.

Lemma bad_reads_exact_witness :
  "r2" ∈ ({["r2"]} : gset string) <->
  exists r t, In r [r2_unsorted] /\ classify r = Ok (Judged "r2" t false).
Proof.
  apply (bad_reads_exact [r2_unsorted] ∅ {["r2"]} "r2").
  vm_compute. reflexivity.
Defined.

(** While all correct records of [n] announce the same total [t], a name not
    yet kept has exactly its correct records counted, fewer than [t]. *)
Lemma keep_reads_run n t s st :
  run init s = Ok st ->
  (forall r t', In r s -> classify r = Ok (Judged n t' true) -> t' = t) ->
  n ∉ keep_reads st ->
  cnt st n = Z.of_nat (correct_count n s)
  /\ ((1 <= t)%Z -> (Z.of_nat (correct_count n s) < t)%Z).
Proof.
  revert s st. apply (run_snoc_ind (fun s st =>
    (forall r t', In r s -> classify r = Ok (Judged n t' true) -> t' = t) ->
    n ∉ keep_reads st ->
    cnt st n = Z.of_nat (correct_count n s)
    /\ ((1 <= t)%Z -> (Z.of_nat (correct_count n s) < t)%Z))).
  - intros _ _. unfold cnt, init, correct_count, count_of.
    cbn [read_counts]. rewrite lookup_empty. simpl. split; lia.
  - intros p st r st' _ IH Hs Htot Hk.
    assert (Htot' : forall r0 t', In r0 p ->
                      classify r0 = Ok (Judged n t' true) -> t' = t).
    { intros r0 t' Hin. apply Htot, in_or_app. now left. }
    specialize (IH Htot').
    rewrite filter_step_classify in Hs.
    destruct (classify r) as [[|m t0 c]|e] eqn:Hc;
      cbn [bind apply_verdict] in Hs; [| |discriminate].
    + inversion Hs; subst st'. destruct (IH Hk) as [H1 H2].
      count_snoc Hc. split; [lia|]. intros Ht. specialize (H2 Ht). lia.
    + destruct (decide (m = n)) as [->|Hmn].
      * destruct c.
        -- assert (t0 = t) as -> by
             (apply (Htot r t0); [apply in_or_app; right; now left | exact Hc]).
           rewrite account_correct in Hs.
           destruct (Z.eqb_spec (cnt st n + 1) t) as [Ht|Ht].
           ++ destruct (decide (n ∈ keep_reads st)); [discriminate|].
              inversion Hs; subst st'. exfalso. apply Hk.
              cbn [keep_reads]. apply elem_of_union_l, elem_of_singleton.
              reflexivity.
           ++ inversion Hs; subst st'. cbn [keep_reads] in Hk.
              destruct (IH Hk) as [H1 H2].
              rewrite cnt_insert, decide_True by reflexivity.
              count_snoc Hc. rewrite bool_decide_eq_true_2 by reflexivity.
              split; [lia|]. intros Ht1. specialize (H2 Ht1). lia.
        -- rewrite account_incorrect in Hs. inversion Hs; subst st'.
           change (cnt (add_bad n st) n) with (cnt st n).
           destruct (IH Hk) as [H1 H2]. count_snoc Hc.
           split; [lia|]. intros Ht. specialize (H2 Ht). lia.
      * destruct (account_frame st st' m t0 c Hs) as (_ & _ & Hfr).
        destruct (Hfr n Hmn) as (Hcnt & Hkeep & _).
        assert (Hk0 : n ∉ keep_reads st) by (intros H; apply Hk, Hkeep, H).
        destruct (IH Hk0) as [H1 H2].
        unfold cnt in *. rewrite Hcnt. count_snoc Hc.
        assert (Hz : (if match c with
                         | true => bool_decide (m = n)
                         | false => false
                         end then 1 else 0)%nat = 0%nat).
        { destruct c; [now rewrite bool_decide_eq_false_2|reflexivity]. }
        rewrite Hz. split; [lia|]. intros Ht. specialize (H2 Ht). lia.
Qed.

(** X5: when [filter_reads] returns and all correct records of a name
    announce the same total [t], the name is in [keep_reads] exactly when
    [t] is at least 1 and the stream holds at least [t] correct records of
    the name. *)
Theorem keep_reads_exact s keep bad n t :
  filter_reads s = Ok (keep, bad) ->
  (forall r t', In r s -> classify r = Ok (Judged n t' true) -> t' = t) ->
  (n ∈ keep <-> (1 <= t)%Z /\ (t <= Z.of_nat (correct_count n s))%Z).
Proof.
  intros H Htot. apply filter_reads_run in H as (st & Hr & -> & _).
  split.
  - intros Hk. pose proof (inv_filter_reads s st Hr) as I.
    destruct (inv_keep s st I n Hk) as (r & t0 & Hin & Hc & Ht0 & Hle).
    pose proof (Htot r t0 Hin Hc) as ->.
    pose proof (cnt_nonneg s st n I). lia.
  - intros [Ht1 Hle].
    destruct (decide (n ∈ keep_reads st)) as [Hk|Hk]; [exact Hk|].
    destruct (keep_reads_run n t s st Hr Htot Hk) as [_ H2].
    specialize (H2 Ht1). lia.
Qed.

Lemma keep_reads_exact_witness :
  "r1" ∈ ({["r1"]} : gset string) <->
  (1 <= 1)%Z /\ (1 <= Z.of_nat (correct_count "r1" [r1_remap]))%Z.
Proof.
  apply (keep_reads_exact [r1_remap] {["r1"]} ∅ "r1" 1%Z).
  - vm_compute. reflexivity.
  - intros r t' [<-|[]] Hc. vm_compute in Hc. now inversion Hc.
Defined.

(** X6: a name is in [keep_reads] only if some correct record of the stream
    announces for it a total of at least 1 that the correct records of the
    name reach; a name whose totals are all below 1 is never kept. *)
Theorem kept_name_has_full_run s keep bad n :
  filter_reads s = Ok (keep, bad) ->
  n ∈ keep ->
  exists r t, In r s /\ classify r = Ok (Judged n t true)
              /\ (1 <= t)%Z /\ (t <= Z.of_nat (correct_count n s))%Z.
Proof.
  intros H Hk. apply filter_reads_run in H as (st & Hr & -> & _).
  pose proof (inv_filter_reads s st Hr) as I.
  destruct (inv_keep s st I n Hk) as (r & t & Hin & Hc & Ht & Hle).
  pose proof (cnt_nonneg s st n I).
  exists r, t. repeat split; try assumption. lia.
Qed.

Lemma kept_name_has_full_run_witness :
  exists r t, In r [r1_remap] /\ classify r = Ok (Judged "r1" t true)
              /\ (1 <= t)%Z
              /\ (t <= Z.of_nat (correct_count "r1" [r1_remap]))%Z.
Proof.
  apply (kept_name_has_full_run [r1_remap] {["r1"]} ∅ "r1");
    [vm_compute; reflexivity | apply elem_of_singleton; reflexivity].
Defined.

(** X7: at every point of the loop, an entry of [read_counts] is at least 1
    and at most the number of correct records seen so far under its name. *)
Theorem count_entries_bounded p st n c :
  run init p = Ok st ->
  read_counts st !! n = Some c ->
  (1 <= c)%Z /\ (c <= Z.of_nat (correct_count n p))%Z.
Proof.
  intros Hr Hc. pose proof (inv_filter_reads p st Hr) as I.
  split; [exact (inv_pos p st I n c Hc)|].
  pose proof (inv_count p st I n) as H. unfold cnt in H.
  rewrite Hc in H. exact H.
Qed.

Lemma count_entries_bounded_witness :
  (1 <= 1)%Z
  /\ (1 <= Z.of_nat
            (correct_count "orig3"
               [Read "orig3.101.1.2" false false false false false 100 0]))%Z.
Proof.
  apply (count_entries_bounded
           [Read "orig3.101.1.2" false false false false false 100 0]
           (VState {["orig3" := 1%Z]} ∅ ∅) "orig3" 1%Z);
    [vm_compute; reflexivity | apply lookup_singleton_eq].
Defined.

(** ** Exceptions *)

Lemma split_with_sep c s :
  PyStr.contains c s = true -> (2 <= length (PyStr.split c s))%nat.
Proof.
  induction s as [|d s IH]; simpl; [discriminate|].
  destruct (Ascii.eqb d c); simpl.
  - intros _. pose proof (PyStrFacts.split_nonempty c s).
    destruct (PyStr.split c s); [congruence | simpl; lia].
  - intros H. specialize (IH H).
    destruct (PyStr.split c s); simpl in *; lia.
Qed.

(** The exceptions of [classify] and what they say of the record. *)
Lemma classify_raise_cases r e :
  classify r = Raise e ->
  is_secondary r = false
  /\ match e with
     | BadReadName q =>
         q = qname r /\ (length (PyStr.split "." q) < 4)%nat
     | InvalidLiteral x => PyStr.int x = None
     | UnpackMismatch k =>
         exists d, decode (qname r) = Ok d
                   /\ k = length (PyStr.split "-" (coordinate_spec d))
                   /\ (3 <= k)%nat
     | SawTooManyTimes _ => False
     end.
Proof.
  unfold classify. destruct (is_secondary r); [discriminate|].
  intros H. split; [reflexivity|].
  destruct (Nat.ltb_spec (length (PyStr.split "." (qname r))) 4) as [Hlt|Hge].
  - rewrite (decode_short _ Hlt) in H. inversion H; subst e. auto.
  - destruct (last_three _ Hge) as (pre & c & n & t & Hw & Hpre).
    rewrite (decode_words _ pre c n t Hw Hpre) in H. unfold to_int in H.
    destruct (PyStr.int n) as [vn|] eqn:Hn;
      [|inversion H; subst e; exact Hn].
    destruct (PyStr.int t) as [vt|] eqn:Ht;
      [|inversion H; subst e; exact Ht].
    cbn [bind coordinate_spec original_name variant_total] in H.
    assert (Hdec : decode (qname r)
                   = Ok (Decoded (PyStr.join "." pre) c vn vt)).
    { rewrite (decode_words _ pre c n t Hw Hpre). unfold to_int.
      now rewrite Hn, Ht. }
    destruct (PyStr.contains "-" c) eqn:Hdash.
    + pose proof (split_with_sep _ _ Hdash) as Hlen.
      destruct (PyStr.split "-" c) as [|c1 [|c2 [|c3 l]]] eqn:Hsp;
        simpl in Hlen; try lia.
      * destruct (negb (is_paired r)); [discriminate|].
        destruct (negb (is_proper_pair r)); [discriminate|].
        destruct (PyStr.int c1) as [p1|] eqn:H1;
          [|inversion H; subst e; exact H1].
        destruct (PyStr.int c2) as [p2|] eqn:H2;
          [|inversion H; subst e; exact H2].
        cbn [bind] in H. destruct (left_mate r); discriminate.
      * inversion H; subst e. eexists. split; [exact Hdec|].
        cbn [coordinate_spec]. rewrite Hsp. split; [reflexivity|].
        simpl. lia.
    + destruct (PyStr.int c) as [p0|] eqn:H0;
        [discriminate | inversion H; subst e; exact H0].
Qed.

(** X8: an exception of the loop body tells the truth about the record and
    the state: the record is a primary alignment; a bad-name exception
    carries its identifier, which has fewer than four fields; an
    invalid-literal exception carries a string that [int] rejects; an unpack
    exception carries the number of parts, three or more, into which the
    coordinate field of the record's identifier splits at its dashes; a
    seen-too-many-times exception names a read already in [keep_reads]. *)
Theorem filter_step_raise_sound st r e :
  filter_step st r = Raise e ->
  is_secondary r = false
  /\ match e with
     | BadReadName q =>
         q = qname r /\ (length (PyStr.split "." q) < 4)%nat
     | InvalidLiteral x => PyStr.int x = None
     | UnpackMismatch k =>
         exists d, decode (qname r) = Ok d
                   /\ k = length (PyStr.split "-" (coordinate_spec d))
                   /\ (3 <= k)%nat
     | SawTooManyTimes n => n ∈ keep_reads st
     end.
Proof.
  intros H. split.
  - destruct (is_secondary r) eqn:Hsec; [|reflexivity].
    rewrite (filter_step_secondary st r Hsec) in H. discriminate.
  - rewrite filter_step_classify in H.
    destruct (classify r) as [[|m t [|]]|e'] eqn:Hc;
      cbn [bind apply_verdict] in H; try discriminate.
    + rewrite account_correct in H.
      destruct (cnt st m + 1 =? t)%Z; [|discriminate].
      destruct (decide (m ∈ keep_reads st)) as [Hk|Hk]; [|discriminate].
      inversion H; subst e. exact Hk.
    + inversion H; subst e'.
      destruct (classify_raise_cases r e Hc) as [_ He].
      destruct e; try exact He. contradiction.
Qed.

Lemma filter_step_raise_sound_witness :
  is_secondary (Read "r7.-5-80.1.1" false true true true false 49 79) = false
  /\ exists d,
       decode (qname (Read "r7.-5-80.1.1" false true true true false 49 79))
       = Ok d
       /\ 3%nat = length (PyStr.split "-" (coordinate_spec d))
       /\ (3 <= 3)%nat.
Proof.
  apply (filter_step_raise_sound init
           (Read "r7.-5-80.1.1" false true true true false 49 79)
           (UnpackMismatch 3)).
  reflexivity.
Defined.

(** Why the loop raised: at a record that [classify] rejects, or at a
    correct record of a name that had already had a full run. *)
Lemma run_raise_cases s e :
  run init s = Raise e ->
  (exists r, In r s /\ classify r = Raise e)
  \/ (exists n r t, e = SawTooManyTimes n /\ In r s
                    /\ classify r = Ok (Judged n t true)
                    /\ (1 <= t)%Z
                    /\ (t < Z.of_nat (correct_count n s))%Z).
Proof.
  intros Hr.
  destruct (run_raise s init _ Hr) as (q1 & r & q2 & st1 & -> & Hq1 & Hs).
  assert (Hin : In r (q1 ++ r :: q2)) by (apply in_or_app; right; now left).
  pose proof (inv_filter_reads q1 st1 Hq1) as I.
  rewrite filter_step_classify in Hs.
  destruct (classify r) as [[|m t [|]]|e'] eqn:Hc;
    cbn [bind apply_verdict] in Hs; try discriminate.
  - right. rewrite account_correct in Hs.
    destruct (Z.eqb_spec (cnt st1 m + 1) t) as [Ht|Ht]; [|discriminate].
    destruct (decide (m ∈ keep_reads st1)) as [Hk|Hk]; [|discriminate].
    inversion Hs; subst e.
    destruct (inv_keep q1 st1 I m Hk) as (r0 & t0 & _ & _ & Ht0 & Hle).
    pose proof (cnt_nonneg q1 st1 m I) as H0.
    exists m, r, t. repeat split; try assumption; [lia|].
    rewrite correct_count_app.
    change (r :: q2) with ([r] ++ q2). rewrite correct_count_app.
    assert (correct_count m [r] = 1%nat) as H1.
    { unfold correct_count, count_of, correct_as. simpl. rewrite Hc.
      now rewrite bool_decide_eq_true_2. }
    lia.
  - left. inversion Hs; subst e'. eauto.
Qed.

(** X9: [filter_reads] raises only for a reason found in the stream: the
    exception of a record that the loop body rejects, or, for a name seen
    too many times, a correct record announcing a total of at least 1 that
    the correct records of the name exceed. *)
Theorem filter_reads_raise_sound s e :
  filter_reads s = Raise e ->
  (exists r, In r s /\ classify r = Raise e)
  \/ (exists n r t, e = SawTooManyTimes n /\ In r s
                    /\ classify r = Ok (Judged n t true)
                    /\ (1 <= t)%Z
                    /\ (t < Z.of_nat (correct_count n s))%Z).
Proof.
  intros H. apply run_raise_cases. unfold filter_reads in H.
  destruct (run init s) as [st|e0]; [discriminate|].
  cbn [bind] in H. now inversion H.
Qed.

Lemma filter_reads_raise_sound_witness :
  (exists r, In r [r1_remap; r1_remap]
             /\ classify r = Raise (SawTooManyTimes "r1"))
  \/ (exists n r t, SawTooManyTimes "r1" = SawTooManyTimes n
                    /\ In r [r1_remap; r1_remap]
                    /\ classify r = Ok (Judged n t true)
                    /\ (1 <= t)%Z
                    /\ (t < Z.of_nat (correct_count n [r1_remap; r1_remap]))%Z).
Proof.
  apply (filter_reads_raise_sound [r1_remap; r1_remap]
           (SawTooManyTimes "r1")).
  vm_compute. reflexivity.
Defined.

(** X10: [filter_reads] returns its two sets on every stream in which the
    loop body rejects no record and no name has more correct records than
    the total that each of them announces. *)
Theorem filter_reads_returns s :
  (forall r, In r s -> exists v, classify r = Ok v) ->
  correct_within_total s = true ->
  exists keep bad, filter_reads s = Ok (keep, bad).
Proof.
  intros Hok Hw. unfold filter_reads.
  destruct (run init s) as [st|e] eqn:Hr; cbn [bind]; [eauto|].
  exfalso. destruct (run_raise_cases s e Hr)
    as [(r & Hin & Hc)|(n & r & t & _ & Hin & Hc & _ & Hlt)].
  - destruct (Hok r Hin) as [v Hv]. congruence.
  - pose proof (correct_within_total_bound s r n t Hw Hin Hc). lia.
Qed.

Lemma filter_reads_returns_witness :
  exists keep bad, filter_reads [r1_remap; r2_unsorted] = Ok (keep, bad).
Proof.
  apply (filter_reads_returns [r1_remap; r2_unsorted]).
  - intros r [<-|[<-|[]]]; eexists; vm_compute; reflexivity.
  - vm_compute. reflexivity.
Defined.

(** ** Identifiers built from their fields *)

Lemma split_app_sep c (a b : string) :
  PyStr.split c (a ++ String c EmptyString ++ b)%string
  = PyStr.split c a ++ PyStr.split c b.
Proof.
  induction a as [|x a IH].
  - rewrite PyStrFacts.append_nil, PyStrFacts.append_cons,
      PyStrFacts.append_nil.
    simpl. now rewrite Ascii.eqb_refl.
  - rewrite PyStrFacts.append_cons. simpl. rewrite IH.
    destruct (Ascii.eqb x c); [reflexivity|].
    pose proof (PyStrFacts.split_nonempty c a).
    destruct (PyStr.split c a); [congruence | reflexivity].
Qed.

Lemma all_space_no_dot s :
  PyStr.all_space s = true -> PyStr.contains "." s = false.
Proof.
  induction s as [|c s IH]; simpl; [reflexivity|].
  intros H. apply andb_true_iff in H as [Hc Hs]. rewrite (IH Hs).
  destruct (Ascii.eqb_spec c ".") as [->|_]; [discriminate | reflexivity].
Qed.

Lemma lstrip_no_dot s :
  PyStr.contains "." (PyStr.lstrip s) = false -> PyStr.contains "." s = false.
Proof.
  induction s as [|c s IH]; simpl; [reflexivity|].
  destruct (PyStr.is_space c) eqn:Hc; [|trivial].
  intros H. rewrite (IH H).
  destruct (Ascii.eqb_spec c ".") as [->|_]; [discriminate | reflexivity].
Qed.

Lemma int_digits_no_dot s : forall acc prev v,
  PyStr.int_digits s acc prev = Some v -> PyStr.contains "." s = false.
Proof.
  induction s as [|c s IH]; intros acc prev v H; [reflexivity|].
  destruct (Ascii.eqb_spec c ".") as [->|Hne]; [simpl in H; discriminate|].
  cbn [PyStr.contains].
  replace (Ascii.eqb c ".") with false by (symmetry; now apply Ascii.eqb_neq).
  cbn [orb]. cbn [PyStr.int_digits] in H.
  destruct (PyStr.digit_val c); [exact (IH _ _ _ H)|].
  destruct (Ascii.eqb c "_").
  - destruct prev; [exact (IH _ _ _ H) | discriminate].
  - destruct (PyStr.is_space c); [|discriminate].
    destruct prev; [|discriminate]. cbn [andb] in H.
    destruct (PyStr.all_space s) eqn:Hs; [|discriminate].
    now apply all_space_no_dot.
Qed.

Lemma int_no_dot s v : PyStr.int s = Some v -> PyStr.contains "." s = false.
Proof.
  unfold PyStr.int. intros H. apply lstrip_no_dot.
  destruct (PyStr.lstrip s) as [|c s']; [reflexivity|].
  assert (Hd : forall s0 w, PyStr.int_digits s0 0 false = Some w ->
                            PyStr.contains "." s0 = false)
    by (intros s0 w; apply int_digits_no_dot).
  assert (Hopp : forall w, Z.opp <$> PyStr.int_digits s' 0 false = Some w ->
                           PyStr.contains "." s' = false).
  { intros w Hw. destruct (PyStr.int_digits s' 0 false) eqn:E;
      [exact (Hd _ _ E) | discriminate]. }
  destruct c as [[] [] [] [] [] [] [] []];
    first [ exact (Hd _ _ H)
          | cbn [PyStr.contains Ascii.eqb Bool.eqb andb orb];
            first [exact (Hd _ _ H) | exact (Hopp _ H)] ].
Qed.

(** X11: the loop recovers the name, coordinate field and totals of an
    identifier built as [name.coord.num.total], whatever characters [name]
    holds (dots included), when [coord] has no dot and [num] and [total]
    are integer literals. *)
Theorem decode_encoded name c n t vn vt :
  PyStr.contains "." c = false ->
  PyStr.int n = Some vn ->
  PyStr.int t = Some vt ->
  decode (name ++ "." ++ c ++ "." ++ n ++ "." ++ t)%string
  = Ok (Decoded name c vn vt).
Proof.
  intros Hc Hn Ht.
  assert (Hs : PyStr.split "." (name ++ "." ++ c ++ "." ++ n ++ "." ++ t)%string
               = PyStr.split "." name ++ [c; n; t]).
  { rewrite !split_app_sep.
    rewrite (split_without_sep "." c Hc).
    rewrite (split_without_sep "." n (int_no_dot n vn Hn)).
    rewrite (split_without_sep "." t (int_no_dot t vt Ht)).
    reflexivity. }
  rewrite (decode_words _ _ c n t Hs (PyStrFacts.split_nonempty "." name)).
  unfold to_int. rewrite Hn, Ht. cbn [bind].
  now rewrite (PyStrFacts.join_split "." name).
Qed.

Lemma decode_encoded_witness :
  decode ("HWI.ST:1.2/x" ++ "." ++ "50-80" ++ "." ++ "3" ++ "." ++ "4")%string
  = Ok (Decoded "HWI.ST:1.2/x" "50-80" 3 4).
Proof.
  apply (decode_encoded "HWI.ST:1.2/x" "50-80" "3" "4" 3%Z 4%Z); reflexivity.
Defined.

(** ** Coordinates and pair flags *)

Lemma classify_two_coordinates r d c1 c2 :
  is_secondary r = false ->
  decode (qname r) = Ok d ->
  PyStr.split "-" (coordinate_spec d) = [c1; c2] ->
  classify r =
    if negb (is_paired r) then
      Ok (Judged (original_name d) (variant_total d) false)
    else if negb (is_proper_pair r) then
      Ok (Judged (original_name d) (variant_total d) false)
    else
      (pos1 <-! to_int c1;
       pos2 <-! to_int c2;
       if left_mate r then
         Ok (Judged (original_name d) (variant_total d)
               ((pos1 =? pos r + 1)%Z
                && (pos2 =? next_reference_start r + 1)%Z))
       else Ok Skipped).
Proof.
  intros Hsec Hd Hsp. unfold classify. rewrite Hsec, Hd. cbn [bind].
  now rewrite (split_two_contains _ _ _ _ Hsp), Hsp.
Qed.

(** X12: a record with a two-coordinate identifier that is not flagged
    paired, or not flagged as a proper pair, sends its name to [bad_reads]
    before the coordinates are read: wherever it maps, and even when the
    coordinates are not integers. *)
Theorem improper_pair_is_bad st r d c1 c2 :
  is_secondary r = false ->
  decode (qname r) = Ok d ->
  PyStr.split "-" (coordinate_spec d) = [c1; c2] ->
  is_paired r && is_proper_pair r = false ->
  filter_step st r = Ok (add_bad (original_name d) st).
Proof.
  intros Hsec Hd Hsp Hfl.
  rewrite filter_step_classify,
    (classify_two_coordinates r d c1 c2 Hsec Hd Hsp).
  destruct (is_paired r); [|reflexivity].
  destruct (is_proper_pair r); [discriminate | reflexivity].
Qed.

Lemma improper_pair_is_bad_witness :
  filter_step init (Read "r6.x-50.1.1" false true false true false 49 79)
  = Ok (add_bad "r6" init).
Proof.
  apply (improper_pair_is_bad init
           (Read "r6.x-50.1.1" false true false true false 49 79)
           (Decoded "r6" "x-50" 1 1) "x" "50"); reflexivity.
Defined.

(** X13: a coordinate field with two dashes or more (a negative coordinate
    in a pair, for one) makes the loop body raise at the unpacking of its
    parts, whatever the flags of the record. *)
Theorem coordinate_unpack_error st r d :
  is_secondary r = false ->
  decode (qname r) = Ok d ->
  (3 <= length (PyStr.split "-" (coordinate_spec d)))%nat ->
  filter_step st r
  = Raise (UnpackMismatch (length (PyStr.split "-" (coordinate_spec d)))).
Proof.
  intros Hsec Hd Hlen. rewrite filter_step_classify. unfold classify.
  rewrite Hsec, Hd. cbn [bind].
  destruct (PyStr.contains "-" (coordinate_spec d)) eqn:Hdash.
  - destruct (PyStr.split "-" (coordinate_spec d)) as [|c1 [|c2 [|c3 l]]];
      simpl in Hlen; try lia. reflexivity.
  - rewrite (split_without_sep _ _ Hdash) in Hlen. simpl in Hlen. lia.
Qed.

Lemma coordinate_unpack_error_witness :
  filter_step init (Read "r7.-5-80.1.1" false false false false false 49 79)
  = Raise (UnpackMismatch (length (PyStr.split "-" "-5-80"))).
Proof.
  apply (coordinate_unpack_error init
           (Read "r7.-5-80.1.1" false false false false false 49 79)
           (Decoded "r7" "-5-80" 1 1)); [reflexivity | reflexivity |].
  vm_compute. lia.
Defined.

(** X14: for a record whose coordinate field has no dash the loop reads one
    coordinate and judges the record correct exactly when its start plus 1
    is that coordinate; the pair flags and the start of the mate are not
    looked at: a primary record with the same identifier and the same start
    does the same to every state. *)
Theorem single_coordinate_judged st r d :
  is_secondary r = false ->
  decode (qname r) = Ok d ->
  PyStr.contains "-" (coordinate_spec d) = false ->
  filter_step st r =
    (pos0 <-! to_int (coordinate_spec d);
     account st (original_name d) (variant_total d) (pos0 =? pos r + 1)%Z)
  /\ forall r',
       qname r' = qname r -> is_secondary r' = false -> pos r' = pos r ->
       filter_step st r' = filter_step st r.
Proof.
  intros Hsec Hd Hdash.
  assert (H : forall r0, qname r0 = qname r -> is_secondary r0 = false ->
              filter_step st r0 =
                (pos0 <-! to_int (coordinate_spec d);
                 account st (original_name d) (variant_total d)
                   (pos0 =? pos r0 + 1)%Z)).
  { intros r0 Hq Hs0. rewrite filter_step_classify. unfold classify.
    rewrite Hs0, Hq, Hd. cbn [bind]. rewrite Hdash.
    destruct (to_int (coordinate_spec d)); reflexivity. }
  split; [now apply H|].
  intros r' Hq Hs' Hp. rewrite (H r' Hq Hs'), (H r eq_refl Hsec), Hp.
  reflexivity.
Qed.

Lemma single_coordinate_judged_witness :
  filter_step init (Read "r8.101.1.1" false true false false true 100 7)
  = (pos0 <-! to_int "101";
     account init "r8" 1 (pos0 =? 100 + 1)%Z)
  /\ forall r',
       qname r' = "r8.101.1.1" -> is_secondary r' = false -> pos r' = 100%Z ->
       filter_step init r'
       = filter_step init
           (Read "r8.101.1.1" false true false false true 100 7).
Proof.
  apply (single_coordinate_judged init
           (Read "r8.101.1.1" false true false false true 100 7)
           (Decoded "r8" "101" 1 1)); reflexivity.
Defined.

(** X15: of the two mates of a proper pair that start at different places,
    the loop judges the one that starts first and skips the other, whatever
    their read1 and read2 flags: a record that starts after its mate leaves
    the state as it was. *)
Theorem later_mate_skipped st r d c1 c2 p1 p2 :
  is_secondary r = false ->
  decode (qname r) = Ok d ->
  PyStr.split "-" (coordinate_spec d) = [c1; c2] ->
  PyStr.int c1 = Some p1 ->
  PyStr.int c2 = Some p2 ->
  is_paired r = true ->
  is_proper_pair r = true ->
  pos r <> next_reference_start r ->
  filter_step st r =
    (if (pos r <? next_reference_start r)%Z
     then account st (original_name d) (variant_total d)
            ((p1 =? pos r + 1)%Z && (p2 =? next_reference_start r + 1)%Z)
     else Ok st).
Proof.
  intros Hsec Hd Hsp H1 H2 Hp Hpp Hne.
  rewrite filter_step_classify,
    (classify_two_coordinates r d c1 c2 Hsec Hd Hsp), Hp, Hpp.
  cbn [negb]. unfold to_int. rewrite H1, H2. cbn [bind].
  unfold left_mate.
  destruct (Z.eqb_spec (pos r) (next_reference_start r)); [contradiction|].
  cbn [andb]. rewrite orb_false_r.
  destruct (pos r <? next_reference_start r)%Z; reflexivity.
Qed.

Lemma later_mate_skipped_witness :
  filter_step init (Read "r2.50-80.1.1" false true true true false 79 49)
  = Ok init.
Proof.
  apply (later_mate_skipped init
           (Read "r2.50-80.1.1" false true true true false 79 49)
           (Decoded "r2" "50-80" 1 1) "50" "80" 50%Z 80%Z);
    [reflexivity | reflexivity | reflexivity | reflexivity | reflexivity
    | reflexivity | reflexivity | discriminate].
Defined.

(** ** The second pass and the whole run *)

(** X16: the second pass can be cut anywhere: over a stream in two parts,
    each counter is the sum of the counters of the parts and the sink holds
    what the first part wrote followed by what the second wrote. *)
Theorem write_reads_app (s1 s2 : list read) (keep bad : gset string) :
  let w := write_reads (s1 ++ s2) keep bad in
  let w1 := write_reads s1 keep bad in
  let w2 := write_reads s2 keep bad in
  keep_count w = (keep_count w1 + keep_count w2)%Z
  /\ bad_count w = (bad_count w1 + bad_count w2)%Z
  /\ discard_count w = (discard_count w1 + discard_count w2)%Z
  /\ keep_bam w = keep_bam w1 ++ keep_bam w2.
Proof.
  cbn zeta. unfold write_reads. rewrite fold_left_app.
  destruct (write_loop keep bad s2
              (fold_left (write_step keep bad) s1 (WState 0 0 0 [])))
    as (Hb & Hk & Hd & Hw).
  destruct (write_loop keep bad s2 (WState 0 0 0 []))
    as (Hb2 & Hk2 & Hd2 & Hw2).
  cbn zeta in *. cbn [bad_count keep_count discard_count keep_bam] in *.
  rewrite Hb, Hk, Hd, Hw, Hb2, Hk2, Hd2, Hw2. repeat split; lia.
Qed.

(** X17: [main] raises exactly when the first pass raises, with the same
    exception, whatever the original stream holds; when it returns, the
    three counters sum to the length of the original stream and the records
    written are records of that stream, in its order. *)
Theorem main_outcome (to_remap_bam remap_bam : list read) :
  (forall e, main to_remap_bam remap_bam = Raise e
             <-> filter_reads remap_bam = Raise e)
  /\ (forall w, main to_remap_bam remap_bam = Ok w ->
        (keep_count w + bad_count w + discard_count w)%Z
        = Z.of_nat (length to_remap_bam)
        /\ sublist (keep_bam w) to_remap_bam).
Proof.
  unfold main. destruct (filter_reads remap_bam) as [[keep bad]|e0];
    cbn [bind fst snd]; split.
  - intros e. split; discriminate.
  - intros w [= <-]. unfold write_reads.
    destruct (write_loop keep bad to_remap_bam (WState 0 0 0 []))
      as (Hb & Hk & Hd & Hw).
    cbn zeta in *. cbn [bad_count keep_count discard_count keep_bam] in *.
    pose proof (three_way keep bad to_remap_bam).
    split; [lia|]. rewrite Hw. cbn [app]. apply sublist_filter.
  - intros e. split; intros [= ->]; reflexivity.
  - intros w H. discriminate.
Qed.

Lemma filter_none (P : read -> Prop) `{!forall r, Decision (P r)}
    (l : list read) :
  (forall r, ~ P r) -> filter P l = [].
Proof.
  intros Hno. induction l as [|r l IH]; [reflexivity|].
  rewrite filter_cons_False by apply Hno. exact IH.
Qed.

(** X18: when the remap stream holds no primary alignment (it is empty, for
    one), [main] writes nothing and counts every original record as
    discarded. *)
Theorem main_without_primary_remaps (to_remap_bam remap_bam : list read) :
  (forall r, In r remap_bam -> is_secondary r = true) ->
  main to_remap_bam remap_bam
  = Ok (WState 0 0 (Z.of_nat (length to_remap_bam)) []).
Proof.
  intros Hsec.
  assert (Hrun : filter_reads remap_bam = Ok (∅, ∅)).
  { unfold filter_reads.
    assert (H : run init remap_bam = Ok init).
    { generalize init. induction remap_bam as [|r s IH]; intros st;
        [reflexivity|].
      cbn [run]. rewrite (filter_step_secondary st r (Hsec r (or_introl eq_refl))).
      cbn [bind]. apply IH. intros r0 H0. apply Hsec. now right. }
    now rewrite H. }
  unfold main. rewrite Hrun. cbn [bind fst snd]. f_equal.
  unfold write_reads.
  destruct (write_loop ∅ ∅ to_remap_bam (WState 0 0 0 []))
    as (Hb & Hk & Hd & Hw).
  pose proof (three_way ∅ ∅ to_remap_bam) as H3.
  rewrite (filter_none (counted_bad ∅)) in *
    by (unfold counted_bad; intros r; apply not_elem_of_empty).
  rewrite (filter_none (counted_kept ∅ ∅)) in *
    by (unfold counted_kept; intros r [_ H]; revert H; apply not_elem_of_empty).
  cbn zeta in *. cbn [bad_count keep_count discard_count keep_bam length] in *.
  destruct (fold_left (write_step ∅ ∅) to_remap_bam (WState 0 0 0 []))
    as [k b dc out].
  cbn [bad_count keep_count discard_count keep_bam app] in *.
  subst k b out. f_equal. lia.
Qed.

Lemma main_without_primary_remaps_witness :
  main [r1_original; r1_original_encoded]
       [Read "r1.101.1.1" true false false false false 100 0]
  = Ok (WState 0 0 (Z.of_nat (length [r1_original; r1_original_encoded])) []).
Proof.
  apply (main_without_primary_remaps [r1_original; r1_original_encoded]
           [Read "r1.101.1.1" true false false false false 100 0]).
  intros r [<-|[]]. reflexivity.
Defined.

Lemma main_outcome_witness :
  (keep_count (WState 1 0 1 [r1_original])
   + bad_count (WState 1 0 1 [r1_original])
   + discard_count (WState 1 0 1 [r1_original]))%Z
  = Z.of_nat (length [r1_original; r1_original_encoded])
  /\ sublist (keep_bam (WState 1 0 1 [r1_original]))
             [r1_original; r1_original_encoded].
Proof.
  apply (proj2 (main_outcome [r1_original; r1_original_encoded] [r1_remap])
           (WState 1 0 1 [r1_original])).
  vm_compute. reflexivity.
Defined.

Lemma keep_reads_iff_run s st n t :
  run init s = Ok st ->
  (forall r t', In r s -> classify r = Ok (Judged n t' true) -> t' = t) ->
  (n ∈ keep_reads st
   <-> (1 <= t)%Z /\ (t <= Z.of_nat (correct_count n s))%Z).
Proof.
  intros Hr Htot. split.
  - intros Hk. pose proof (inv_filter_reads s st Hr) as I.
    destruct (inv_keep s st I n Hk) as (r & t0 & Hin & Hc & Ht0 & Hle).
    pose proof (Htot r t0 Hin Hc) as ->.
    pose proof (cnt_nonneg s st n I). lia.
  - intros [Ht1 Hle].
    destruct (decide (n ∈ keep_reads st)) as [Hk|Hk]; [exact Hk|].
    destruct (keep_reads_run n t s st Hr Htot Hk) as [_ H2].
    specialize (H2 Ht1). lia.
Qed.

(** X19: the whole run, for a name whose correct remap records all announce
    the same total [t]: [main] writes a record exactly when it is a record
    of the original stream, [t] is at least 1, the remap stream holds at
    least [t] correct records under the identifier of the record, and no
    record judged incorrect under it. *)
Theorem main_writes_exact (to_remap_bam remap_bam : list read) w r t :
  main to_remap_bam remap_bam = Ok w ->
  (forall r' t', In r' remap_bam ->
                 classify r' = Ok (Judged (qname r) t' true) -> t' = t) ->
  (In r (keep_bam w)
   <-> In r to_remap_bam
       /\ (1 <= t)%Z
       /\ (t <= Z.of_nat (correct_count (qname r) remap_bam))%Z
       /\ ~ (exists r' t', In r' remap_bam
                           /\ classify r' = Ok (Judged (qname r) t' false))).
Proof.
  intros Hmain Htot. unfold main in Hmain.
  destruct (filter_reads remap_bam) as [[keep bad]|e] eqn:Hf; [|discriminate].
  cbn [bind fst snd] in Hmain. inversion Hmain; subst w; clear Hmain.
  apply filter_reads_run in Hf as (st & Hr & -> & ->).
  unfold write_reads.
  destruct (write_loop (keep_reads st) (bad_reads st) to_remap_bam
              (WState 0 0 0 [])) as (_ & _ & _ & Hw).
  cbn zeta in Hw. rewrite Hw. cbn [keep_bam app].
  rewrite <- list_elem_of_In, list_elem_of_filter, list_elem_of_In.
  unfold counted_kept.
  rewrite (bad_reads_run remap_bam st Hr (qname r)).
  rewrite (keep_reads_iff_run remap_bam st (qname r) t Hr Htot).
  tauto.
Qed.

Lemma main_writes_exact_witness :
  In r1_original (keep_bam (WState 1 0 1 [r1_original]))
  <-> In r1_original [r1_original; r1_original_encoded]
      /\ (1 <= 1)%Z
      /\ (1 <= Z.of_nat (correct_count (qname r1_original) [r1_remap]))%Z
      /\ ~ (exists r' t', In r' [r1_remap]
              /\ classify r' = Ok (Judged (qname r1_original) t' false)).
Proof.
  apply (main_writes_exact [r1_original; r1_original_encoded] [r1_remap]
           (WState 1 0 1 [r1_original]) r1_original 1%Z).
  - vm_compute. reflexivity.
  - intros r' t' [<-|[]] Hc. vm_compute in Hc. now inversion Hc.
Defined.
